(** * Booking lifecycle and car availability: the PATCH route of
      [app/api/booking/[id]/route.ts]

    A shallow embedding of the booking-status route handler ([PATCH],
    [handleCompleteBooking], [handleRegularUpdate]) over an explicit model of
    the two MongoDB collections it touches, together with the properties of
    the booking lifecycle that hold of it.

    The handler is asynchronous JavaScript that threads a database, a driver
    session and exceptions through a sequence of awaited calls; it is written
    here in a small state-and-exception monad [M] so that each definition can
    be read side by side with the function it embeds. *)

From Stdlib Require Import ZArith.
From stdpp Require Import base option list strings gmap.

Local Open Scope string_scope.
Local Open Scope Z_scope.

(** ** Documents *)

(** A calendar date.  BSON stores a [Date] as a signed count of milliseconds
    since the Unix epoch; dates are compared by that value. *)
Definition Date := Z.

(** [customerInfo] as the pages' [CustomerInfo] interface declares it. *)
Record CustomerInfo := {
  fullName : string;
  email : string;
  phone : string;
  idNumber : string
}.

(** The booking's own [schedule], read by the route as one object with a
    [date] array ([booking.schedule.date]).  Both the object and its [date]
    field are tested for truthiness before use, hence the two options. *)
Record BookingSchedule := {
  bs_available : bool;
  bs_date : option (list Date)
}.

(** The fields of a Booking document that the route selects:
    ['schedule carId status customerInfo'].  [carId] is the string form of
    the referenced car's [_id]. *)
Record Booking := {
  status : string;
  customerInfo : CustomerInfo;
  carId : string;
  schedule : option BookingSchedule
}.

(** One entry of a car's [schedule] array.  [available] is [None] for a JSON
    [null] (or a missing field; MongoDB's [{available: null}] matches both). *)
Record ScheduleEntry := {
  date : list Date;
  available : option bool
}.

Record Car := {
  model : string;
  registrationNumber : string;
  car_schedule : list ScheduleEntry
}.

(** The two collections, keyed by the string form of [_id]. *)
Record DB := {
  bookings : gmap string Booking;
  cars : gmap string Car
}.

(** ** Requests and responses *)

(** The parsed request body, for the requests the properties below are
    about: a JSON object whose keys are among [status], [action] and
    [customerInfo], the latter given as a whole object.  Absent keys are
    [None].  The route hands the body to [findByIdAndUpdate] as it is, so a
    body with other keys (dotted paths such as ["customerInfo.fullName"],
    update operators such as [$set], other paths of the schema) writes more
    than these three; such bodies are outside this type, and no property
    below speaks about them. *)
Record BookingUpdateBody := {
  b_status : option string;
  b_action : option string;
  b_customerInfo : option CustomerInfo
}.

(** What [await request.json()] and the destructuring [const { status,
    action } = body] find: a JSON object, or something on which one of the
    two throws (text that is not JSON, or the JSON value [null]). *)
Inductive RequestBody :=
| JsonObject (body : BookingUpdateBody)
| NotAnObject.

(** The update document Mongoose derives from a body of the type above
    passed to [findByIdAndUpdate]: the schema paths it carries, as a
    [$set]. *)
Record BookingUpdate := {
  set_status : option string;
  set_customerInfo : option CustomerInfo
}.

(** A booking with its [carId] reference resolved by [populate("carId")]:
    the car document, or [null] when no such car exists. *)
Record Populated := {
  doc : Booking;
  populatedCar : option Car
}.

(** The JSON payload of a response: [{ error }] or [{ message, booking }]. *)
Inductive Payload :=
| ErrorBody (error : string)
| MessageBody (message : string) (booking : option Populated).

(** [NextResponse.json(payload, { status: code })]. *)
Record Response := {
  payload : Payload;
  code : Z
}.

Definition json (p : Payload) (c : Z) : Response := {| payload := p; code := c |}.

(** ** The environment of a request *)

(** The awaited calls of the route, in the order the source writes them;
    each is a point where the storage layer may reject the call.  A query
    with [.populate("carId")] is one awaited expression that runs two
    operations, the query itself and then the lookup of the car; each of the
    two is a point of its own, since the first has taken effect when the
    second fails. *)
Inductive Site :=
| SConnect          (* await dbConnect() *)
| SStartSession     (* await mongoose.startSession() *)
| SCompleteFind     (* Booking.findById(id).select(..).session(session) *)
| SCompleteSet      (* Booking.findByIdAndUpdate(_id, {$set: {status}}, {session}) *)
| SCompletePush     (* Car.updateOne(.., {$push: ..}, {session}) *)
| SCompleteCommit   (* session.commitTransaction() in handleCompleteBooking *)
| SCompleteRefetch  (* Booking.findById(id).populate("carId") after the commit *)
| SRegularFind      (* Booking.findById(id) in handleRegularUpdate *)
| SCancelSet        (* Booking.findByIdAndUpdate(id, {...body, status}, {.., session}) *)
| SCancelPopulate   (* .populate("carId") of that query *)
| SCancelPull       (* Car.updateOne(.., {$pull: ..}, {session}) *)
| SCancelCommit     (* session.commitTransaction() in the cancellation branch *)
| SRegularSet       (* Booking.findByIdAndUpdate(id, body, {new, runValidators}) *)
| SRegularPopulate. (* .populate("carId") of that query *)

(** A thrown JavaScript [Error] with its [message]. *)
Inductive Exn := JsError (message : string).

Definition exn_message (e : Exn) : string :=
  match e with JsError m => m end.

(** What the route takes from outside its own source:
    - [isValid]: [mongoose.Types.ObjectId.isValid];
    - [runValidators]: the validators of the Booking schema ([models/booking]),
      run on an update when the call passes [runValidators: true];
    - [fault]: for each awaited call, the error the storage layer raises
      there, if it raises one. *)
Record Env := {
  isValid : string -> bool;
  runValidators : BookingUpdate -> bool;
  fault : Site -> option Exn
}.

(** ** Sessions and the monad of a request *)

(** The transaction state of the driver session.  Writes made with the
    session while a transaction is in progress go to the working copy [work]
    and reach the collections at [commitTransaction] only. *)
Inductive Txn :=
| NoTransaction
| InProgress (work : DB)
| TxnCommitted
| TxnAborted.

Record World := {
  store : DB;
  txn : Txn
}.

Inductive Outcome (A : Type) :=
| Return (a : A)
| Throw (e : Exn).
Arguments Return {A} a.
Arguments Throw {A} e.

Definition M (A : Type) : Type := World -> Outcome A * World.

Definition ret {A} (a : A) : M A := fun w => (Return a, w).

Definition throw {A} (e : Exn) : M A := fun w => (Throw e, w).

Definition bind {A B} (m : M A) (k : A -> M B) : M B :=
  fun w =>
    match m w with
    | (Return a, w') => k a w'
    | (Throw e, w') => (Throw e, w')
    end.

(** [try { body } catch (error) { handler }] *)
Definition try_catch {A} (body : M A) (handler : Exn -> M A) : M A :=
  fun w =>
    match body w with
    | (Return a, w') => (Return a, w')
    | (Throw e, w') => handler e w'
    end.

(** [try { body } finally { fin }], for a [fin] that does not throw. *)
Definition try_finally {A} (body : M A) (fin : World -> World) : M A :=
  fun w =>
    match body w with
    | (o, w') => (o, fin w')
    end.

(** [const x = await m; k] and [await m; k]. *)
Notation "'let*' x ':=' m 'in' k" := (bind m (fun x => k))
  (at level 10, x name, m at level 100, k at level 200).
Notation "'do*' m 'in' k" := (bind m (fun _ => k))
  (at level 10, m at level 100, k at level 200).

(** ** JavaScript tests on the body's strings *)

(** [v === s] for a [v] that is a string or [undefined]. *)
Definition strictEq (v : option string) (s : string) : bool :=
  match v with
  | Some x => String.eqb x s
  | None => false
  end.

(** Truthiness of a string or [undefined]: the empty string is falsy. *)
Definition truthy (v : option string) : bool :=
  match v with
  | Some x => negb (String.eqb x "")
  | None => false
  end.

(** [list.includes(v)] *)
Definition includes (l : list string) (v : option string) : bool :=
  existsb (strictEq v) l.

Definition validStatuses : list string := ["pending"; "confirmed"; "cancelled"].

(** ** The storage layer: Mongoose calls on the two collections *)

Definition with_bookings (d : DB) (bs : gmap string Booking) : DB :=
  {| bookings := bs; cars := cars d |}.

Definition with_cars (d : DB) (cs : gmap string Car) : DB :=
  {| bookings := bookings d; cars := cs |}.

(** The database a call reads: the transaction's working copy when the call
    carries the session and a transaction is in progress, the collections
    otherwise. *)
Definition view (session : bool) (w : World) : DB :=
  match session, txn w with
  | true, InProgress work => work
  | _, _ => store w
  end.

(** Where a call writes, by the same rule. *)
Definition write (session : bool) (d : DB) (w : World) : World :=
  match session, txn w with
  | true, InProgress _ => {| store := store w; txn := InProgress d |}
  | _, _ => {| store := d; txn := txn w |}
  end.

(** [$set] of the paths an update carries. *)
Definition applyUpdate (u : BookingUpdate) (b : Booking) : Booking :=
  {| status := default (status b) (set_status u);
     customerInfo := default (customerInfo b) (set_customerInfo u);
     carId := carId b;
     schedule := schedule b |}.

(** [{ $push: { schedule: { $each: entries } } }] *)
Definition push_each (entries : list ScheduleEntry) (sched : list ScheduleEntry)
  : list ScheduleEntry :=
  sched ++ entries.

(** The query [{ date: { $in: dates }, available: null }] on one schedule
    entry: [$in] on an array field holds when some element of the array is
    one of [dates]. *)
Definition pull_matches (dates : list Date) (e : ScheduleEntry) : bool :=
  existsb (fun d => existsb (Z.eqb d) dates) (date e)
  && match available e with None => true | Some _ => false end.

(** [{ $pull: { schedule: { date: { $in: dates }, available: null } } }] *)
Definition pull_blocked (dates : list Date) (sched : list ScheduleEntry)
  : list ScheduleEntry :=
  List.filter (fun e => negb (pull_matches dates e)) sched.

Definition with_schedule (c : Car) (sched : list ScheduleEntry) : Car :=
  {| model := model c;
     registrationNumber := registrationNumber c;
     car_schedule := sched |}.

(** [booking.schedule && booking.schedule.date] *)
Definition schedule_date (b : Booking) : option (list Date) :=
  match schedule b with
  | Some s => bs_date s
  | None => None
  end.

(** The dates a booking occupies, none when the schedule or its [date] is
    missing. *)
Definition occupied (b : Booking) : list Date :=
  default [] (schedule_date b).

(** The update document of an object passed to [findByIdAndUpdate]: [action]
    is not a path of the schema and is dropped. *)
Definition update_of (body : BookingUpdateBody) : BookingUpdate :=
  {| set_status := b_status body; set_customerInfo := b_customerInfo body |}.

(** [{ ...body, status: s }] *)
Definition spread_status (body : BookingUpdateBody) (s : string) : BookingUpdateBody :=
  {| b_status := Some s; b_action := b_action body;
     b_customerInfo := b_customerInfo body |}.

Section Route.

Context (env : Env).

(** An awaited call at [site]: it throws the fault of the site, if any. *)
Definition await {A} (site : Site) (call : M A) : M A :=
  fun w =>
    match fault env site with
    | Some e => (Throw e, w)
    | None => call w
    end.

Definition dbConnect : M unit := ret tt.

(** [Booking.findById(id)], with [.session(session)] when [session].  The
    collections are keyed by the canonical string of an [_id] (24 lower-case
    hexadecimal digits), and the identifier is looked up as it is written.
    Mongoose casts the string to an ObjectId first, so the lookup is that of
    the route for identifiers in canonical form ([canonicalId] below); the
    same holds of [Booking_findByIdAndUpdate]. *)
Definition Booking_findById (session : bool) (id : string) : M (option Booking) :=
  fun w => (Return (bookings (view session w) !! id), w).

(** [populate("carId")] on a found document. *)
Definition populate (session : bool) (b : option Booking) : M (option Populated) :=
  fun w =>
    (Return (match b with
             | Some b => Some {| doc := b; populatedCar := cars (view session w) !! carId b |}
             | None => None
             end), w).

(** [Booking.findByIdAndUpdate(id, update, { new, runValidators, session })].
    With [runValidators] a rejected update throws before anything is
    written.  The call resolves to the document after the update with
    [new: true], to the one before it otherwise, to [null] when no booking
    has this id. *)
Definition Booking_findByIdAndUpdate (session : bool) (id : string)
    (u : BookingUpdate) (new validate : bool) : M (option Booking) :=
  fun w =>
    if validate && negb (runValidators env u)
    then (Throw (JsError "Validation failed"), w)
    else
      let d := view session w in
      match bookings d !! id with
      | None => (Return None, w)
      | Some b =>
          let b' := applyUpdate u b in
          (Return (Some (if new then b' else b)),
           write session (with_bookings d (<[id := b']> (bookings d))) w)
      end.

(** [Car.updateOne({ _id: carId }, update, { session })] for an update [f]
    of the [schedule] array.  When no car has this id nothing is matched and
    nothing is written; the call still resolves, and the route does not look
    at its result. *)
Definition Car_updateOne (session : bool) (carId : string)
    (f : list ScheduleEntry -> list ScheduleEntry) : M unit :=
  fun w =>
    let d := view session w in
    match cars d !! carId with
    | None => (Return tt, w)
    | Some c =>
        (Return tt,
         write session (with_cars d (<[carId := with_schedule c (f (car_schedule c))]> (cars d))) w)
    end.

(** [mongoose.startSession()] *)
Definition startSession : M unit :=
  fun w => (Return tt, {| store := store w; txn := NoTransaction |}).

(** [session.startTransaction()] *)
Definition startTransaction : M unit :=
  fun w =>
    match txn w with
    | InProgress _ => (Throw (JsError "Transaction already in progress"), w)
    | _ => (Return tt, {| store := store w; txn := InProgress (store w) |})
    end.

(** [session.commitTransaction()]: the working copy becomes the collections. *)
Definition commitTransaction : M unit :=
  fun w =>
    match txn w with
    | InProgress work => (Return tt, {| store := work; txn := TxnCommitted |})
    | TxnCommitted => (Return tt, w)
    | NoTransaction => (Throw (JsError "No transaction started"), w)
    | TxnAborted =>
        (Throw (JsError "Cannot call commitTransaction after calling abortTransaction"), w)
    end.

(** [await session.commitTransaction()] at [site].  When the commit fails
    nothing of the working copy is written, and the driver has marked the
    transaction committed all the same, so that an [abortTransaction] after
    it throws. *)
Definition await_commit (site : Site) : M unit :=
  fun w =>
    match fault env site with
    | Some e =>
        (Throw e,
         {| store := store w;
            txn := match txn w with InProgress _ => TxnCommitted | t => t end |})
    | None => commitTransaction w
    end.

(** [session.abortTransaction()]: the working copy is dropped. *)
Definition abortTransaction : M unit :=
  fun w =>
    match txn w with
    | InProgress _ => (Return tt, {| store := store w; txn := TxnAborted |})
    | NoTransaction => (Throw (JsError "No transaction started"), w)
    | TxnCommitted =>
        (Throw (JsError "Cannot call abortTransaction after calling commitTransaction"), w)
    | TxnAborted => (Throw (JsError "Cannot call abortTransaction twice"), w)
    end.

(** [session.endSession()]: a transaction still in progress is dropped with
    the session. *)
Definition endSession (w : World) : World :=
  {| store := store w; txn := NoTransaction |}.

(** ** The route *)

(** The blocking entries of a completion: one per date of the booking,
    [{ date: [bookingDate], available: null }]. *)
Definition scheduleEntries (dates : list Date) : list ScheduleEntry :=
  map (fun bookingDate => {| date := [bookingDate]; available := None |}) dates.

(** [handleCompleteBooking(id)] *)
Definition handleCompleteBooking (id : string) : M Response :=
  do* await SStartSession startSession in
  try_finally
    (try_catch
       (do* startTransaction in
        let* booking := await SCompleteFind (Booking_findById true id) in
        match booking with
        | None =>
            do* abortTransaction in
            ret (json (ErrorBody "Booking not found") 404)
        | Some booking =>
            if String.eqb (status booking) "completed" then
              do* abortTransaction in
              ret (json (ErrorBody "Booking is already completed") 400)
            else if String.eqb (status booking) "cancelled" then
              do* abortTransaction in
              ret (json (ErrorBody "Cannot complete a cancelled booking") 400)
            else
              do* await SCompleteSet
                    (Booking_findByIdAndUpdate true id
                       {| set_status := Some "completed"; set_customerInfo := None |}
                       false false) in
              do* match schedule_date booking with
                  | Some dates =>
                      if (0 <? Z.of_nat (length dates)) then
                        await SCompletePush
                          (Car_updateOne true (carId booking)
                             (push_each (scheduleEntries dates)))
                      else ret tt
                  | None => ret tt
                  end in
              do* await_commit SCompleteCommit in
              let* updatedBooking :=
                await SCompleteRefetch
                  (let* found := Booking_findById false id in populate false found) in
              ret (json (MessageBody "Booking completed successfully" updatedBooking) 200)
        end)
       (fun error =>
          do* abortTransaction in
          ret (json (ErrorBody
                       (String.append "Failed to complete booking: " (exn_message error)))
                    500)))
    endSession.

(** [handleRegularUpdate(id, body)] *)
Definition handleRegularUpdate (id : string) (body : BookingUpdateBody) : M Response :=
  let status_ := b_status body in
  if truthy status_ && negb (includes validStatuses status_) then
    ret (json (ErrorBody "Invalid status. Use action: 'complete' for completing bookings.") 400)
  else
    let* existingBooking := await SRegularFind (Booking_findById false id) in
    match existingBooking with
    | None => ret (json (ErrorBody "Booking not found") 404)
    | Some existingBooking =>
        if String.eqb (status existingBooking) "completed" && truthy status_ then
          ret (json (ErrorBody "Cannot modify a completed booking") 400)
        else if strictEq status_ "cancelled"
                && negb (String.eqb (status existingBooking) "cancelled") then
          do* await SStartSession startSession in
          try_finally
            (try_catch
               (do* startTransaction in
                let* updated :=
                  await SCancelSet
                    (Booking_findByIdAndUpdate true id
                       (update_of (spread_status body "cancelled")) true true) in
                let* updatedBooking := await SCancelPopulate (populate true updated) in
                do* match schedule_date existingBooking with
                    | Some dates =>
                        await SCancelPull
                          (Car_updateOne true (carId existingBooking) (pull_blocked dates))
                    | None => ret tt
                    end in
                do* await_commit SCancelCommit in
                ret (json (MessageBody "Booking cancelled successfully" updatedBooking) 200))
               (fun error =>
                  do* abortTransaction in
                  throw error))
            endSession
        else
          let* updated :=
            await SRegularSet
              (Booking_findByIdAndUpdate false id (update_of body) true true) in
          let* updatedBooking := await SRegularPopulate (populate false updated) in
          match updatedBooking with
          | None => ret (json (ErrorBody "Booking not found") 404)
          | Some _ =>
              ret (json (MessageBody
                           (String.append "Booking "
                              (String.append
                                 (if truthy status_ then default "" status_ else "updated")
                                 " successfully"))
                           updatedBooking)
                        200)
          end
    end.

(** [const body = await request.json(); const { status, action } = body] *)
Definition request_json (request : RequestBody) : M BookingUpdateBody :=
  match request with
  | JsonObject body => ret body
  | NotAnObject => throw (JsError "Unexpected end of JSON input")
  end.

(** [PATCH(request, context)], with [id] the awaited route parameter. *)
Definition PATCH (id : string) (request : RequestBody) : M Response :=
  try_catch
    (do* await SConnect dbConnect in
     if negb (isValid env id) then
       ret (json (ErrorBody "Invalid booking ID") 400)
     else
       let* body := request_json request in
       if strictEq (b_action body) "complete" || strictEq (b_status body) "completed" then
         handleCompleteBooking id
       else
         handleRegularUpdate id body)
    (fun _ => ret (json (ErrorBody "Failed to update booking") 500)).

End Route.

(** One request against the collections [db]: the response, and the
    collections after it.  [PATCH] catches everything, so the [Throw] case
    is never taken ([PATCH_returns] below). *)
Definition handleRequest (env : Env) (id : string) (request : RequestBody) (db : DB)
  : Response * DB :=
  match PATCH env id request {| store := db; txn := NoTransaction |} with
  | (Return r, w) => (r, store w)
  | (Throw e, w) => (json (ErrorBody (exn_message e)) 500, store w)
  end.

(** The same for a request whose body is the JSON object [body]. *)
Definition updateBookingStatus (env : Env) (id : string) (body : BookingUpdateBody)
    (db : DB) : Response * DB :=
  handleRequest env id (JsonObject body) db.

(** ** Vocabulary of the properties *)

(** The body asks for a completion: [action === "complete" || status ===
    "completed"], the test of [PATCH]. *)
Definition requests_complete (body : BookingUpdateBody) : bool :=
  strictEq (b_action body) "complete" || strictEq (b_status body) "completed".

(** No awaited call fails. *)
Definition NoFault (env : Env) : Prop := forall s, fault env s = None.

(** The awaited calls between [startTransaction] and the return of
    [commitTransaction]: the atomic unit of a completion or a cancellation. *)
Definition in_atomic_unit (s : Site) : bool :=
  match s with
  | SCompleteFind | SCompleteSet | SCompletePush | SCompleteCommit
  | SCancelSet | SCancelPopulate | SCancelPull | SCancelCommit => true
  | _ => false
  end.

(** A booking with its status set, everything else kept. *)
Definition with_status (b : Booking) (s : string) : Booking :=
  {| status := s; customerInfo := customerInfo b;
     carId := carId b; schedule := schedule b |}.

(** The cars after [Car.updateOne] with update [f] on car [k]. *)
Definition update_car (k : string) (f : list ScheduleEntry -> list ScheduleEntry)
    (cs : gmap string Car) : gmap string Car :=
  match cs !! k with
  | Some c => <[k := with_schedule c (f (car_schedule c))]> cs
  | None => cs
  end.

(** The cars after the completion of [b]: the push is issued for a
    non-empty list of dates only. *)
Definition cars_after_complete (b : Booking) (cs : gmap string Car) : gmap string Car :=
  match occupied b with
  | [] => cs
  | dates => update_car (carId b) (push_each (scheduleEntries dates)) cs
  end.

(** The cars after the cancellation of [b]: the pull is issued whenever the
    booking has a [schedule.date], empty or not. *)
Definition cars_after_cancel (b : Booking) (cs : gmap string Car) : gmap string Car :=
  match schedule_date b with
  | Some dates => update_car (carId b) (pull_blocked dates) cs
  | None => cs
  end.

(** ** A concrete instance

    The scenario of the specification: booking [b1] on car [c1] for the
    first two days of June 2024, with a second booking [b2] of the same car
    that overlaps it on the first day, a booking [b3] of a car that does not
    exist, and a booking [b4] with no dates. *)

Definition isHexDigit (a : Ascii.ascii) : bool :=
  let n := Ascii.nat_of_ascii a in
  ((48 <=? n) && (n <=? 57) || (65 <=? n) && (n <=? 70) || (97 <=? n) && (n <=? 102))%nat.

(** The canonical string of an ObjectId, the form under which the
    collections are keyed: 24 hexadecimal digits, the letters in lower
    case. *)
Definition canonicalId (id : string) : bool :=
  Nat.eqb (String.length id) 24
  && forallb (fun a => let n := Ascii.nat_of_ascii a in
                       ((48 <=? n) && (n <=? 57) || (97 <=? n) && (n <=? 102))%nat)
       (String.list_ascii_of_string id).

(** A 24-digit hexadecimal string, the usual form of an ObjectId. *)
Definition isHex24 (s : string) : bool :=
  Nat.eqb (String.length s) 24 && forallb isHexDigit (String.list_ascii_of_string s).

Definition env_ok : Env :=
  {| isValid := isHex24; runValidators := fun _ => true; fault := fun _ => None |}.

#[global] Instance Site_eq_dec : EqDecision Site.
Proof. solve_decision. Defined.

(** The same, with the storage layer failing at one awaited call. *)
Definition env_failing (at_site : Site) : Env :=
  {| isValid := isHex24;
     runValidators := fun _ => true;
     fault := fun s =>
       if bool_decide (s = at_site) then Some (JsError "write conflict") else None |}.

Definition june1 : Date := 1717200000000.
Definition june2 : Date := 1717286400000.

Definition alice : CustomerInfo :=
  {| fullName := "Alice Wanjiru"; email := "alice@example.com";
     phone := "0700000001"; idNumber := "11111111" |}.

Definition brian : CustomerInfo :=
  {| fullName := "Brian Otieno"; email := "brian@example.com";
     phone := "0700000002"; idNumber := "22222222" |}.

Definition id_b1 : string := "64b7f0c2a1d3e4f5a6b7c801".
Definition id_b2 : string := "64b7f0c2a1d3e4f5a6b7c802".
Definition id_b3 : string := "64b7f0c2a1d3e4f5a6b7c803".
Definition id_b4 : string := "64b7f0c2a1d3e4f5a6b7c804".
Definition id_c1 : string := "64b7f0c2a1d3e4f5a6b7c901".
Definition id_gone : string := "64b7f0c2a1d3e4f5a6b7c999".

Definition b1 : Booking :=
  {| status := "pending"; customerInfo := alice; carId := id_c1;
     schedule := Some {| bs_available := false; bs_date := Some [june1; june2] |} |}.

Definition b2 : Booking :=
  {| status := "confirmed"; customerInfo := brian; carId := id_c1;
     schedule := Some {| bs_available := false; bs_date := Some [june1] |} |}.

Definition b3 : Booking :=
  {| status := "pending"; customerInfo := brian; carId := id_gone;
     schedule := Some {| bs_available := false; bs_date := Some [june2] |} |}.

Definition b4 : Booking :=
  {| status := "confirmed"; customerInfo := alice; carId := id_c1;
     schedule := Some {| bs_available := false; bs_date := Some [] |} |}.

Definition c1 : Car :=
  {| model := "Toyota Vitz"; registrationNumber := "KDA 001A";
     car_schedule := [{| date := [1719792000000]; available := Some true |}] |}.

Definition db0 : DB :=
  {| bookings := {[ id_b1 := b1; id_b2 := b2; id_b3 := b3; id_b4 := b4 ]};
     cars := {[ id_c1 := c1 ]} |}.

Definition complete_body : BookingUpdateBody :=
  {| b_status := None; b_action := Some "complete"; b_customerInfo := None |}.

Definition status_body (s : string) : BookingUpdateBody :=
  {| b_status := Some s; b_action := None; b_customerInfo := None |}.

(** The collections after a request in [env_ok]. *)
Definition after (id : string) (body : BookingUpdateBody) (db : DB) : DB :=
  (updateBookingStatus env_ok id body db).2.

Definition status_of (id : string) (db : DB) : option string :=
  status <$> bookings db !! id.

Definition schedule_of (id : string) (db : DB) : option (list ScheduleEntry) :=
  car_schedule <$> cars db !! id.

(** ** The standalone completion route

    [app/api/booking/[id]/complete/route.ts]: the completion as a route of
    its own.  It makes the awaited calls of [handleCompleteBooking], which
    carry the same sites here, but starts the session before its [try],
    connects and checks the identifier inside it, has no handler around its
    [catch], and marks the entries it pushes [available: false]. *)

Module CompleteRoute.

(** [newScheduleEntries]: [{ date: [d], available: false }] per date. *)
Definition newScheduleEntries (dates : list Date) : list ScheduleEntry :=
  map (fun d => {| date := [d]; available := Some false |}) dates.

(** [PATCH(request, context)].  The re-read populates ["carId"] and
    ["customerId"]; the response of the model carries the car. *)
Definition PATCH (env : Env) (id : string) : M Response :=
  do* await env SStartSession startSession in
  try_finally
    (try_catch
       (do* await env SConnect dbConnect in
        if negb (isValid env id) then
          ret (json (ErrorBody "Invalid booking ID") 400)
        else
          do* startTransaction in
          let* booking := await env SCompleteFind (Booking_findById true id) in
          match booking with
          | None =>
              do* abortTransaction in
              ret (json (ErrorBody "Booking not found") 404)
          | Some booking =>
              if String.eqb (status booking) "completed" then
                do* abortTransaction in
                ret (json (ErrorBody "Booking is already completed") 400)
              else if String.eqb (status booking) "cancelled" then
                do* abortTransaction in
                ret (json (ErrorBody "Cannot complete a cancelled booking") 400)
              else
                do* await env SCompleteSet
                      (Booking_findByIdAndUpdate env true id
                         {| set_status := Some "completed"; set_customerInfo := None |}
                         false false) in
                do* match schedule_date booking with
                    | Some dates =>
                        if (0 <? Z.of_nat (length dates)) then
                          await env SCompletePush
                            (Car_updateOne true (carId booking)
                               (push_each (newScheduleEntries dates)))
                        else ret tt
                    | None => ret tt
                    end in
                do* await_commit env SCompleteCommit in
                let* updatedBooking :=
                  await env SCompleteRefetch
                    (let* found := Booking_findById false id in populate false found) in
                ret (json (MessageBody "Booking completed successfully" updatedBooking) 200)
          end)
       (fun error =>
          do* abortTransaction in
          ret (json (ErrorBody
                       (String.append "Failed to complete booking: " (exn_message error)))
                    500)))
    endSession.

(** One request: what the handler resolves to or throws, and the
    collections after it. *)
Definition completeBooking (env : Env) (id : string) (db : DB) : Outcome Response * DB :=
  match PATCH env id {| store := db; txn := NoTransaction |} with
  | (o, w) => (o, store w)
  end.

End CompleteRoute.

(** ** The plain update route

    The second [PATCH] of [app/api/booking/[id]/route.ts]: the body goes to
    [findByIdAndUpdate] as it is, and the answer is the booking itself. *)

Module PlainRoute.

(** The JSON payload: [{ error }] or the populated booking. *)
Inductive Payload :=
| ErrorBody (error : string)
| BookingBody (booking : Populated).

Record Response := {
  payload : Payload;
  code : Z
}.

Definition json (p : Payload) (c : Z) : Response := {| payload := p; code := c |}.

(** [PATCH(request, context)] *)
Definition PATCH (env : Env) (id : string) (request : RequestBody) : M Response :=
  try_catch
    (do* await env SConnect dbConnect in
     if negb (isValid env id) then
       ret (json (ErrorBody "Invalid booking ID") 400)
     else
       let* body := request_json request in
       let* updated :=
         await env SRegularSet
           (Booking_findByIdAndUpdate env false id (update_of body) true true) in
       let* updatedBooking := await env SRegularPopulate (populate false updated) in
       match updatedBooking with
       | None => ret (json (ErrorBody "Booking not found") 404)
       | Some updatedBooking => ret (json (BookingBody updatedBooking) 200)
       end)
    (fun _ => ret (json (ErrorBody "Failed to update booking") 500)).

Definition handleRequest (env : Env) (id : string) (request : RequestBody) (db : DB)
  : Response * DB :=
  match PATCH env id request {| store := db; txn := NoTransaction |} with
  | (Return r, w) => (r, store w)
  | (Throw e, w) => (json (ErrorBody (exn_message e)) 500, store w)
  end.

(** The same for a request whose body is the JSON object [body]. *)
Definition updateBooking (env : Env) (id : string) (body : BookingUpdateBody) (db : DB)
  : Response * DB :=
  handleRequest env id (JsonObject body) db.

End PlainRoute.

(** ** The callers: the booking dialog and the bookings page *)

Module BookingModal.

Inductive BookingActionType := confirm | cancel | complete.

Definition statusMap (type : BookingActionType) : string :=
  match type with
  | confirm => "confirmed"
  | cancel => "cancelled"
  | complete => "completed"
  end.

Definition actionTextMap (type : BookingActionType) : string :=
  match type with
  | confirm => "confirm"
  | cancel => "cancel"
  | complete => "complete"
  end.

(** [type === "complete" ? { action: "complete" } : { status: statusMap[type] }] *)
Definition request_body (type : BookingActionType) : BookingUpdateBody :=
  match type with
  | complete => {| b_status := None; b_action := Some "complete"; b_customerInfo := None |}
  | _ => {| b_status := Some (statusMap type); b_action := None; b_customerInfo := None |}
  end.

Inductive Toast :=
| toast_success (text : string)
| toast_error (text : string).

(** [res.ok]: a status in the range 200-299. *)
Definition ok (res : Response) : bool := (200 <=? code res) && (code res <=? 299).

(** [result.error || "Unknown error"] *)
Definition error_text (res : Response) : string :=
  match payload res with
  | ErrorBody e => if String.eqb e "" then "Unknown error" else e
  | MessageBody _ _ => "Unknown error"
  end.

(** [handleStatusUpdate()], for the dialog's [type] and [id], against the
    collections the route works on: the toast shown, if any, and the
    collections after it.  Without an [id] nothing is sent. *)
Definition handleStatusUpdate (env : Env) (type : BookingActionType) (id : option string)
    (db : DB) : option Toast * DB :=
  if negb (truthy id) then (None, db)
  else
    let body := request_body type in
    match updateBookingStatus env (default "" id) body db with
    | (res, db') =>
        if ok res then
          (Some (toast_success
                   (String.append "Booking "
                      (String.append (actionTextMap type) "ed successfully"))),
           db')
        else
          (Some (toast_error (String.append "Update failed: " (error_text res))), db')
    end.

End BookingModal.

Module BookingsPage.

(** The dialogs a row of [app/d/bookings/page.tsx] renders for a booking:
    confirm and cancel when it is pending, complete when it is confirmed. *)
Definition actions (status : string) : list BookingModal.BookingActionType :=
  ((if String.eqb status "pending"
    then [BookingModal.confirm; BookingModal.cancel] else [])
   ++ (if String.eqb status "confirmed" then [BookingModal.complete] else []))%list.

(** [toggleRowExpansion(bookingId)], as the next value of [expandedRows]. *)
Definition toggleRowExpansion (expandedRows : gset string) (bookingId : string)
  : gset string :=
  if bool_decide (bookingId ∈ expandedRows)
  then expandedRows ∖ {[bookingId]}
  else {[bookingId]} ∪ expandedRows.

Definition bookingsPerPage : Z := 10.

(** [Array.prototype.slice(start, end)] for integer arguments: a negative
    index counts from the end, and both are clamped to the array. *)
Definition slice {A} (l : list A) (start end_ : Z) : list A :=
  let len := Z.of_nat (length l) in
  let k := if start <? 0 then Z.max (len + start) 0 else Z.min start len in
  let final := if end_ <? 0 then Z.max (len + end_) 0 else Z.min end_ len in
  take (Z.to_nat (final - k)) (drop (Z.to_nat k) l).

Definition indexOfLastBooking (currentPage : Z) : Z := currentPage * bookingsPerPage.

Definition indexOfFirstBooking (currentPage : Z) : Z :=
  indexOfLastBooking currentPage - bookingsPerPage.

(** [filteredBookings.slice(indexOfFirstBooking, indexOfLastBooking)] *)
Definition currentBookings {A} (filteredBookings : list A) (currentPage : Z) : list A :=
  slice filteredBookings (indexOfFirstBooking currentPage) (indexOfLastBooking currentPage).

(** [Math.ceil(filteredBookings.length / bookingsPerPage)]: the least
    integer not below the quotient. *)
Definition totalPages {A} (filteredBookings : list A) : Z :=
  - ((- Z.of_nat (length filteredBookings)) / bookingsPerPage).

(** The number on the [i]-th page button. *)
Definition pageNumber (currentPage totalPages i : Z) : Z :=
  if totalPages <=? 5 then i + 1
  else if currentPage <=? 3 then i + 1
  else if totalPages - 2 <=? currentPage then totalPages - 4 + i
  else currentPage - 2 + i.

(** The numbered buttons the page renders:
    [totalPages > 1 && Array.from({ length: Math.min(5, totalPages) },
    (_, i) => pageNumber)]; none when there is a single page or no page. *)
Definition pageButtons (currentPage totalPages : Z) : list Z :=
  if 1 <? totalPages
  then map (pageNumber currentPage totalPages) (seqZ 0 (Z.min 5 totalPages))
  else [].

End BookingsPage.

Module BookingsTable.

(** The character ['T'] (code 84). *)
Definition char_T : Ascii.ascii := Ascii.ascii_of_nat 84.

(** [date.split('T')[0]]: the part of an ISO date string before its first
    ['T'], the whole string when it has none. *)
Fixpoint day_of (date : string) : string :=
  match date with
  | EmptyString => EmptyString
  | String c rest =>
      if Ascii.eqb c char_T then EmptyString else String c (day_of rest)
  end.

(** [getBookedDays(dates)]: the size of the set of their days. *)
Definition getBookedDays (dates : list string) : Z :=
  Z.of_nat (size (list_to_set (map day_of dates) : gset string)).

End BookingsTable.

(** * Properties *)

(** ** Running a request *)

Ltac run_request :=
  unfold updateBookingStatus, handleRequest, PATCH, request_json,
    handleCompleteBooking, handleRegularUpdate,
    bind, try_finally, try_catch, await, await_commit.

Ltac reduce :=
  cbn -[String.eqb Z.ltb truthy includes strictEq String.append] in *.

(** Case analysis on the fault of one awaited call, in program order. *)
Ltac on_fault env s := destruct (fault env s) eqn:?; reduce.

(** The branch under analysis left the collections as they were and did not
    answer with a success. *)
Ltac unchanged := left; split; [done | intros ? [= <-]; done].

Lemma length_positive {A} (l : list A) :
  (0 <? Z.of_nat (length l)) = match l with [] => false | _ :: _ => true end.
Proof.
  destruct l as [|x l]; [reflexivity|].
  apply Z.ltb_lt. cbn [length]. lia.
Qed.

Lemma with_schedule_id c : with_schedule c (car_schedule c) = c.
Proof. by destruct c. Qed.

Lemma with_status_id b : with_status b (status b) = b.
Proof. by destruct b. Qed.

Lemma update_car_id k cs : update_car k (fun sched => sched) cs = cs.
Proof.
  unfold update_car. destruct (cs !! k) as [c|] eqn:Hc; [|done].
  rewrite with_schedule_id. by apply insert_id.
Qed.

Lemma update_car_ext k f g cs :
  (forall sched, f sched = g sched) -> update_car k f cs = update_car k g cs.
Proof.
  intros Hfg. unfold update_car. destruct (cs !! k); [|done]. by rewrite Hfg.
Qed.

Lemma pull_matches_spec dates e :
  pull_matches dates e = true
  <-> available e = None /\ exists d, In d (date e) /\ In d dates.
Proof.
  unfold pull_matches. rewrite andb_true_iff, existsb_exists. split.
  - intros [(d & Hd & Hin) Hav]. split.
    + by destruct (available e).
    + exists d. split; [done|].
      apply existsb_exists in Hin as (d' & Hd' & Heq).
      apply Z.eqb_eq in Heq. by subst.
  - intros [Hav (d & Hd & Hin)]. split.
    + exists d. split; [done|]. apply existsb_exists. exists d.
      split; [done | apply Z.eqb_refl].
    + by rewrite Hav.
Qed.

Lemma pull_blocked_spec dates sched e :
  In e (pull_blocked dates sched)
  <-> In e sched /\ ~ (available e = None /\ exists d, In d (date e) /\ In d dates).
Proof.
  unfold pull_blocked. rewrite filter_In, negb_true_iff, <- pull_matches_spec.
  by destruct (pull_matches dates e); intuition.
Qed.

Lemma pull_blocked_nil sched : pull_blocked [] sched = sched.
Proof.
  unfold pull_blocked. induction sched as [|e sched IH]; [done|].
  cbn [List.filter]. replace (pull_matches [] e) with false.
  - cbn. by rewrite IH.
  - unfold pull_matches. cbn [existsb].
    replace (existsb (fun _ : Z => false) (date e)) with false; [done|].
    by induction (date e) as [|d ds IHd].
Qed.

Lemma open_status_eqb b :
  status b = "pending" \/ status b = "confirmed" ->
  String.eqb (status b) "completed" = false
  /\ String.eqb (status b) "cancelled" = false.
Proof. by intros [-> | ->]. Qed.

Lemma strictEq_Some v s : strictEq v s = true <-> v = Some s.
Proof.
  destruct v as [x|]; cbn; [|done].
  rewrite String.eqb_eq. split; [by intros -> | by intros [= ->]].
Qed.

(** [PATCH] has a catch-all handler: it always resolves to a response. *)
Lemma PATCH_returns env id request w :
  exists r w', PATCH env id request w = (Return r, w').
Proof.
  unfold PATCH, try_catch.
  match goal with |- context [match ?m w with _ => _ end] => destruct (m w) as [[r|e] w'] end;
    eauto.
Qed.

(** ** What a request can leave behind

    Whatever the storage layer does, a handler ends in one of a few states:
    the collections as they were, with a response that is not a success; or
    a committed transition. *)

Lemma complete_cases env id db t :
  let r := handleCompleteBooking env id {| store := db; txn := t |} in
  (store r.2 = db /\ forall resp, r.1 = Return resp -> code resp <> 200)
  \/ (exists b,
        bookings db !! id = Some b
        /\ store r.2 = {| bookings := <[id := with_status b "completed"]> (bookings db);
                          cars := cars_after_complete b (cars db) |}
        /\ ((exists p, r.1 = Return (json (MessageBody "Booking completed successfully" p) 200))
            \/ (fault env SCompleteRefetch <> None /\ exists e, r.1 = Throw e))).
Proof.
  run_request.
  on_fault env SStartSession; [unchanged|].
  on_fault env SCompleteFind; [unchanged|].
  destruct (bookings db !! id) as [b|] eqn:Hb; reduce; [|unchanged].
  destruct (String.eqb (status b) "completed"); reduce; [unchanged|].
  destruct (String.eqb (status b) "cancelled"); reduce; [unchanged|].
  on_fault env SCompleteSet; [unchanged|].
  rewrite Hb. reduce.
  destruct (schedule_date b) as [[|d dates]|] eqn:Hd; rewrite ?length_positive; reduce.
  2: on_fault env SCompletePush; [unchanged|];
     unfold Car_updateOne; reduce;
     destruct (cars db !! carId b) as [c|] eqn:Hc; reduce.
  all: on_fault env SCompleteCommit; [unchanged|].
  all: right; exists b; split; [done|].
  all: unfold cars_after_complete, occupied, update_car; rewrite Hd; reduce;
       rewrite ?Hc.
  all: on_fault env SCompleteRefetch;
       (split; [destruct db; reflexivity |]);
       [right; split; [done | eauto] | left; eauto].
Qed.

Lemma regular_cases env id body db t :
  let r := handleRegularUpdate env id body {| store := db; txn := t |} in
  (store r.2 = db /\ forall resp, r.1 = Return resp -> code resp <> 200)
  \/ (exists b,
        bookings db !! id = Some b
        /\ b_status body = Some "cancelled"
        /\ store r.2 =
             {| bookings := <[id := applyUpdate (update_of (spread_status body "cancelled")) b]>
                              (bookings db);
                cars := cars_after_cancel b (cars db) |}
        /\ exists p, r.1 = Return (json (MessageBody "Booking cancelled successfully" p) 200))
  \/ (exists b,
        bookings db !! id = Some b
        /\ store r.2 = with_bookings db (<[id := applyUpdate (update_of body) b]> (bookings db))
        /\ ((exists m p, r.1 = Return (json (MessageBody m p) 200))
            \/ (fault env SRegularPopulate <> None /\ exists e, r.1 = Throw e))).
Proof.
  run_request.
  destruct (truthy (b_status body) && negb (includes validStatuses (b_status body)));
    reduce; [unchanged|].
  on_fault env SRegularFind; [unchanged|].
  destruct (bookings db !! id) as [b|] eqn:Hb; reduce; [|unchanged].
  destruct (String.eqb (status b) "completed" && truthy (b_status body)); reduce; [unchanged|].
  destruct (strictEq (b_status body) "cancelled" && negb (String.eqb (status b) "cancelled"))
    eqn:Hcancel; reduce.
  - apply andb_true_iff in Hcancel as [Hst%strictEq_Some _].
    on_fault env SStartSession; [unchanged|].
    on_fault env SCancelSet; [unchanged|].
    unfold Booking_findByIdAndUpdate. reduce.
    destruct (runValidators env (update_of (spread_status body "cancelled"))); reduce;
      [|unchanged].
    rewrite Hb. reduce.
    on_fault env SCancelPopulate; [unchanged|].
    destruct (schedule_date b) as [dates|] eqn:Hd; reduce.
    1: on_fault env SCancelPull; [unchanged|];
       unfold Car_updateOne; reduce;
       destruct (cars db !! carId b) as [c|] eqn:Hc; reduce.
    all: on_fault env SCancelCommit; [unchanged|].
    all: right; left; exists b; split; [done|]; split; [done|].
    all: unfold cars_after_cancel, update_car; rewrite Hd, ?Hc; reduce.
    all: split; [destruct db; reflexivity | eauto].
  - on_fault env SRegularSet; [unchanged|].
    unfold Booking_findByIdAndUpdate. reduce.
    destruct (runValidators env (update_of body)); reduce; [|unchanged].
    rewrite Hb. reduce.
    right; right. exists b. split; [done|].
    on_fault env SRegularPopulate; (split; [reflexivity|]).
    + right. split; [done | eauto].
    + left. eauto.
Qed.

(** The same for a whole request. *)
Lemma request_cases env id body db :
  let r := updateBookingStatus env id body db in
  (r.2 = db /\ code r.1 <> 200)
  \/ (exists b,
        bookings db !! id = Some b
        /\ requests_complete body = true
        /\ r.2 = {| bookings := <[id := with_status b "completed"]> (bookings db);
                    cars := cars_after_complete b (cars db) |}
        /\ (code r.1 = 200 \/ fault env SCompleteRefetch <> None))
  \/ (exists b,
        bookings db !! id = Some b
        /\ requests_complete body = false
        /\ b_status body = Some "cancelled"
        /\ r.2 = {| bookings := <[id := applyUpdate (update_of (spread_status body "cancelled")) b]>
                                  (bookings db);
                    cars := cars_after_cancel b (cars db) |}
        /\ code r.1 = 200)
  \/ (exists b,
        bookings db !! id = Some b
        /\ requests_complete body = false
        /\ r.2 = with_bookings db (<[id := applyUpdate (update_of body) b]> (bookings db))
        /\ (code r.1 = 200 \/ fault env SRegularPopulate <> None)).
Proof.
  unfold updateBookingStatus, handleRequest, PATCH, request_json, try_catch, bind, await,
    requests_complete.
  on_fault env SConnect; [by left|].
  destruct (isValid env id); reduce; [|by left].
  destruct (strictEq (b_action body) "complete" || strictEq (b_status body) "completed")
    eqn:Hc.
  - destruct (complete_cases env id db NoTransaction) as [[Hs Hr]|(b & Hb & Hs & Hr)];
      cbn zeta in *;
      destruct (handleCompleteBooking env id _) as [[resp|e] w]; reduce.
    + left. split; [done|]. by apply Hr.
    + by left.
    + right; left. exists b. destruct Hr as [[p [= ->]]|[Hf _]]; eauto 10.
    + right; left. exists b. destruct Hr as [[p [=]]|[Hf _]]; eauto 10.
  - destruct (regular_cases env id body db NoTransaction)
      as [[Hs Hr]|[(b & Hb & Hst & Hs & Hr)|(b & Hb & Hs & Hr)]];
      cbn zeta in *;
      destruct (handleRegularUpdate env id body _) as [[resp|e] w]; reduce.
    + left. split; [done|]. by apply Hr.
    + by left.
    + right; right; left. exists b. destruct Hr as [p [= ->]]. eauto 10.
    + by destruct Hr as [p [=]].
    + right; right; right. exists b. destruct Hr as [(m & p & [= ->])|[Hf _]]; eauto 10.
    + right; right; right. exists b. destruct Hr as [(m & p & [=])|[Hf _]]; eauto 10.
Qed.

(** ** Requests that succeed, when no awaited call fails *)

Lemma complete_succeeds env id body db b :
  NoFault env ->
  isValid env id = true ->
  requests_complete body = true ->
  bookings db !! id = Some b ->
  String.eqb (status b) "completed" = false ->
  String.eqb (status b) "cancelled" = false ->
  updateBookingStatus env id body db =
    (json (MessageBody "Booking completed successfully"
             (Some {| doc := with_status b "completed";
                      populatedCar := cars_after_complete b (cars db) !! carId b |}))
          200,
     {| bookings := <[id := with_status b "completed"]> (bookings db);
        cars := cars_after_complete b (cars db) |}).
Proof.
  intros NF Hid Hreq Hb Hs1 Hs2. unfold requests_complete in Hreq.
  run_request. rewrite !NF. reduce. rewrite Hid, Hreq. reduce.
  rewrite Hb, Hs1, Hs2. reduce. rewrite Hb. reduce.
  unfold cars_after_complete, occupied, update_car.
  destruct (schedule_date b) as [[|d dates]|] eqn:Hd; rewrite ?length_positive; reduce.
  2: unfold Car_updateOne; reduce;
     destruct (cars db !! carId b) as [c|] eqn:Hc; reduce.
  all: rewrite lookup_insert_eq; reduce.
  all: by destruct db.
Qed.

Lemma cancel_succeeds env id body db b :
  NoFault env ->
  isValid env id = true ->
  requests_complete body = false ->
  b_status body = Some "cancelled" ->
  bookings db !! id = Some b ->
  String.eqb (status b) "completed" = false ->
  String.eqb (status b) "cancelled" = false ->
  runValidators env (update_of (spread_status body "cancelled")) = true ->
  let b' := applyUpdate (update_of (spread_status body "cancelled")) b in
  updateBookingStatus env id body db =
    (json (MessageBody "Booking cancelled successfully"
             (Some {| doc := b'; populatedCar := cars db !! carId b |}))
          200,
     {| bookings := <[id := b']> (bookings db);
        cars := cars_after_cancel b (cars db) |}).
Proof.
  intros NF Hid Hreq Hst Hb Hs1 Hs2 Hv b'. unfold requests_complete in Hreq.
  run_request. rewrite !NF. reduce. rewrite Hid, Hreq. reduce.
  rewrite Hst.
  change (truthy (Some "cancelled") && negb (includes validStatuses (Some "cancelled")))
    with false.
  change (truthy (Some "cancelled")) with true.
  change (strictEq (Some "cancelled") "cancelled") with true.
  reduce. rewrite Hb. reduce. rewrite Hs1, Hs2. reduce.
  unfold Booking_findByIdAndUpdate. reduce. rewrite Hv. reduce.
  rewrite Hb. reduce.
  unfold cars_after_cancel, update_car.
  destruct (schedule_date b) as [dates|] eqn:Hd; reduce.
  1: unfold Car_updateOne; reduce;
     destruct (cars db !! carId b) as [c|] eqn:Hc; reduce.
  all: subst b'; rewrite ?Hst; by destruct db.
Qed.

Lemma regular_succeeds env id body db b :
  NoFault env ->
  isValid env id = true ->
  requests_complete body = false ->
  truthy (b_status body) && negb (includes validStatuses (b_status body)) = false ->
  bookings db !! id = Some b ->
  String.eqb (status b) "completed" && truthy (b_status body) = false ->
  strictEq (b_status body) "cancelled" && negb (String.eqb (status b) "cancelled") = false ->
  runValidators env (update_of body) = true ->
  let b' := applyUpdate (update_of body) b in
  updateBookingStatus env id body db =
    (json (MessageBody
             (String.append "Booking "
                (String.append
                   (if truthy (b_status body) then default "" (b_status body) else "updated")
                   " successfully"))
             (Some {| doc := b'; populatedCar := cars db !! carId b |}))
          200,
     with_bookings db (<[id := b']> (bookings db))).
Proof.
  intros NF Hid Hreq Hvalid Hb Hdone Hcancel Hv b'. unfold requests_complete in Hreq.
  run_request. rewrite !NF. reduce. rewrite Hid, Hreq. reduce.
  rewrite Hvalid. reduce. rewrite Hb. reduce. rewrite Hdone, Hcancel. reduce.
  unfold Booking_findByIdAndUpdate. reduce. rewrite Hv. reduce.
  rewrite Hb. reduce. reflexivity.
Qed.

(** ** Requests that are refused *)

Lemma complete_refused env id body db b :
  NoFault env ->
  isValid env id = true ->
  requests_complete body = true ->
  bookings db !! id = Some b ->
  status b = "completed" \/ status b = "cancelled" ->
  updateBookingStatus env id body db =
    (json (ErrorBody (if String.eqb (status b) "completed"
                      then "Booking is already completed"
                      else "Cannot complete a cancelled booking")) 400,
     db).
Proof.
  intros NF Hid Hreq Hb Hs. unfold requests_complete in Hreq.
  run_request. rewrite !NF. reduce. rewrite Hid, Hreq. reduce.
  rewrite Hb. by destruct Hs as [-> | ->].
Qed.

Lemma regular_refused_completed env id body db b :
  NoFault env ->
  isValid env id = true ->
  requests_complete body = false ->
  truthy (b_status body) = true ->
  bookings db !! id = Some b ->
  status b = "completed" ->
  updateBookingStatus env id body db =
    (json (ErrorBody (if includes validStatuses (b_status body)
                      then "Cannot modify a completed booking"
                      else "Invalid status. Use action: 'complete' for completing bookings."))
          400,
     db).
Proof.
  intros NF Hid Hreq Ht Hb Hs. unfold requests_complete in Hreq.
  run_request. rewrite !NF. reduce. rewrite Hid, Hreq. reduce.
  rewrite Ht. destruct (includes validStatuses (b_status body)); reduce; [|done].
  by rewrite Hb, Hs.
Qed.

Lemma not_complete_request body s :
  b_status body = Some s ->
  s <> "completed" ->
  b_action body <> Some "complete" ->
  requests_complete body = false.
Proof.
  intros Hst Hs Ha. unfold requests_complete. apply orb_false_iff. split.
  - destruct (strictEq (b_action body) "complete") eqn:E; [|done].
    by apply strictEq_Some in E.
  - destruct (strictEq (b_status body) "completed") eqn:E; [|done].
    apply strictEq_Some in E. congruence.
Qed.

Lemma complete_request body :
  b_action body = Some "complete" \/ b_status body = Some "completed" ->
  requests_complete body = true.
Proof.
  unfold requests_complete. intros [H | H]; apply orb_true_iff; [left | right];
    by apply strictEq_Some.
Qed.

(** ** Completion *)

(** Claim C1.  For a booking that is pending or confirmed, with occupied
    dates [dates] in its schedule, a completion request ([action =
    "complete"] or [status = "completed"]) answers 200 with the updated
    booking, sets the booking's status to ["completed"], and appends to the
    schedule of the referenced car one blocking entry [{date: [d],
    available: null}] per date [d], in order, and nothing else: the car
    keeps its model and registration number, and its schedule is the old
    one followed by the new entries. *)
Theorem complete_blocks_each_date env id body db b c dates :
  NoFault env ->
  isValid env id = true ->
  b_action body = Some "complete" \/ b_status body = Some "completed" ->
  bookings db !! id = Some b ->
  status b = "pending" \/ status b = "confirmed" ->
  schedule_date b = Some dates ->
  cars db !! carId b = Some c ->
  let b' := {| status := "completed"; customerInfo := customerInfo b;
               carId := carId b; schedule := schedule b |} in
  let c' := {| model := model c;
               registrationNumber := registrationNumber c;
               car_schedule :=
                 car_schedule c
                 ++ map (fun d => {| date := [d]; available := None |}) dates |} in
  updateBookingStatus env id body db =
    (json (MessageBody "Booking completed successfully"
             (Some {| doc := b'; populatedCar := Some c' |}))
          200,
     {| bookings := <[id := b']> (bookings db);
        cars := <[carId b := c']> (cars db) |}).
Proof.
  intros NF Hid Hreq%complete_request Hb [Hs1 Hs2]%open_status_eqb Hd Hc b' c'.
  rewrite (complete_succeeds env id body db b) by done.
  assert (Hcars : cars_after_complete b (cars db) = <[carId b := c']> (cars db)).
  { unfold cars_after_complete, occupied, update_car. rewrite Hd. cbn [default].
    destruct dates as [|d dates].
    - subst c'. cbn [map]. rewrite app_nil_r. symmetry.
      apply insert_id. rewrite Hc. by destruct c.
    - by rewrite Hc. }
  rewrite Hcars, lookup_insert_eq. reflexivity.
Qed.

Lemma complete_blocks_each_date_witness :
  let r := updateBookingStatus env_ok id_b1 complete_body db0 in
  status b1 = "pending"
  /\ schedule_date b1 = Some [june1; june2]
  /\ code r.1 = 200
  /\ bookings r.2 !! id_b1
     = Some {| status := "completed"; customerInfo := alice; carId := id_c1;
               schedule := Some {| bs_available := false;
                                   bs_date := Some [june1; june2] |} |}
  /\ cars r.2 !! id_c1
     = Some {| model := "Toyota Vitz"; registrationNumber := "KDA 001A";
               car_schedule := [{| date := [1719792000000]; available := Some true |};
                                {| date := [june1]; available := None |};
                                {| date := [june2]; available := None |}] |}.
Proof.
  cbv zeta. split; [reflexivity|]. split; [reflexivity|].
  rewrite (complete_blocks_each_date env_ok id_b1 complete_body db0 b1 c1 [june1; june2]).
  - cbn [fst snd code json bookings cars]. split; [reflexivity|].
    rewrite !lookup_insert_eq. split; reflexivity.
  - intros s; reflexivity.
  - vm_compute; reflexivity.
  - left; reflexivity.
  - vm_compute; reflexivity.
  - left; reflexivity.
  - reflexivity.
  - vm_compute; reflexivity.
Defined.

(** ** Cancellation *)




(** ** Atomicity *)

(** Claim C3.  Whatever fails inside the atomic unit of a completion or a
    cancellation (any of its awaited calls, for any reason, a rejected
    validation included), a request that answers with an error leaves both
    collections exactly as they were before the call: the booking keeps its
    status and the car its schedule. *)
Theorem atomic_unit_failure_rolls_back env id body db :
  (forall s, in_atomic_unit s = false -> fault env s = None) ->
  code (updateBookingStatus env id body db).1 <> 200 ->
  (updateBookingStatus env id body db).2 = db.
Proof.
  intros Hunit Herr.
  destruct (request_cases env id body db)
    as [[Hs _]|[(b & _ & _ & _ & [H|H])|[(b & _ & _ & _ & _ & H)|(b & _ & _ & _ & [H|H])]]];
    cbv zeta in *; try done.
  - by rewrite Hunit in H.
  - by rewrite Hunit in H.
Qed.

Lemma atomic_unit_failure_rolls_back_witness :
  code (updateBookingStatus (env_failing SCompletePush) id_b1 complete_body db0).1 = 500
  /\ (updateBookingStatus (env_failing SCompletePush) id_b1 complete_body db0).2 = db0
  /\ code (updateBookingStatus (env_failing SCancelCommit) id_b1
             (status_body "cancelled") db0).1 = 500
  /\ (updateBookingStatus (env_failing SCancelCommit) id_b1
        (status_body "cancelled") db0).2 = db0.
Proof.
  split; [vm_compute; reflexivity|]. split; [|split; [vm_compute; reflexivity|]].
  - apply (atomic_unit_failure_rolls_back (env_failing SCompletePush) id_b1 complete_body db0).
    + intros s Hs. destruct s; try discriminate Hs; reflexivity.
    + vm_compute. discriminate.
  - apply (atomic_unit_failure_rolls_back (env_failing SCancelCommit) id_b1
             (status_body "cancelled") db0).
    + intros s Hs. destruct s; try discriminate Hs; reflexivity.
    + vm_compute. discriminate.
Defined.

(** The limit of the atomic unit: the re-read of the booking that follows
    the commit in [handleCompleteBooking] is outside it.  When that call
    fails the request answers 500 although the completion is committed. *)
Example failure_after_commit_is_not_rolled_back :
  let r := updateBookingStatus (env_failing SCompleteRefetch) id_b1 complete_body db0 in
  r.1 = json (ErrorBody "Failed to update booking") 500
  /\ status_of id_b1 r.2 = Some "completed".
Proof. vm_compute. split; reflexivity. Qed.

(** ** Terminal states *)

(** Claim C4, as stated, fails for [cancelled]: a confirm request on a
    cancelled booking is a regular update, answers 200 and sets the status
    back to ["confirmed"]. *)
Lemma cancelled_booking_is_confirmed_again :
  let db1 := after id_b1 (status_body "cancelled") db0 in
  let r := updateBookingStatus env_ok id_b1 (status_body "confirmed") db1 in
  status_of id_b1 db1 = Some "cancelled"
  /\ code r.1 = 200
  /\ status_of id_b1 r.2 = Some "confirmed".
Proof. vm_compute. repeat split; reflexivity. Qed.

(** Claim C4, amended.  [completed] is terminal: on a completed booking
    every request that asks for a status (confirm, cancel, complete) is
    refused with 400 and changes nothing.  [cancelled] is closed to
    completion only: a completion request on a cancelled booking is refused
    with 400 and changes nothing, while a regular status update (to
    pending, confirmed or cancelled) that the schema accepts answers 200
    and writes the requested status. *)
Theorem completed_is_terminal_cancelled_is_not env id body db b :
  NoFault env ->
  isValid env id = true ->
  bookings db !! id = Some b ->
  let r := updateBookingStatus env id body db in
  (status b = "completed" ->
   requests_complete body = true \/ truthy (b_status body) = true ->
   code r.1 = 400 /\ r.2 = db)
  /\ (status b = "cancelled" ->
      requests_complete body = true ->
      r = (json (ErrorBody "Cannot complete a cancelled booking") 400, db))
  /\ (status b = "cancelled" ->
      requests_complete body = false ->
      forall s, b_status body = Some s ->
                In s validStatuses ->
                runValidators env (update_of body) = true ->
                code r.1 = 200 /\ status_of id r.2 = Some s).
Proof.
  intros NF Hid Hb r. subst r. split; [|split].
  - intros Hs Hreq.
    destruct (requests_complete body) eqn:Hc.
    + rewrite (complete_refused env id body db b) by auto. done.
    + destruct Hreq as [|Ht]; [done|].
      rewrite (regular_refused_completed env id body db b) by done. done.
  - intros Hs Hreq.
    rewrite (complete_refused env id body db b) by auto. by rewrite Hs.
  - intros Hs Hreq s Hst Hin Hv.
    assert (Hne : s <> "").
    { intros ->. cbn in Hin. intuition discriminate. }
    assert (Hincl : includes validStatuses (b_status body) = true).
    { rewrite Hst. unfold includes. apply existsb_exists. exists s. split; [done|].
      cbn. apply String.eqb_refl. }
    rewrite (regular_succeeds env id body db b); try done.
    + cbn [fst snd code json]. split; [done|].
      unfold status_of. cbn [bookings with_bookings].
      rewrite lookup_insert_eq. cbn. by rewrite Hst.
    + rewrite Hincl. apply andb_false_r.
    + by rewrite Hs.
    + rewrite Hs. apply andb_false_r.
Qed.

Lemma completed_is_terminal_cancelled_is_not_witness :
  let db_done := after id_b1 complete_body db0 in
  let db_gone := after id_b1 (status_body "cancelled") db0 in
  (code (updateBookingStatus env_ok id_b1 (status_body "cancelled") db_done).1 = 400
   /\ (updateBookingStatus env_ok id_b1 (status_body "cancelled") db_done).2 = db_done)
  /\ updateBookingStatus env_ok id_b1 complete_body db_gone
     = (json (ErrorBody "Cannot complete a cancelled booking") 400, db_gone)
  /\ (code (updateBookingStatus env_ok id_b1 (status_body "pending") db_gone).1 = 200
      /\ status_of id_b1 (updateBookingStatus env_ok id_b1 (status_body "pending") db_gone).2
         = Some "pending").
Proof.
  cbv zeta. split; [|split].
  - refine (proj1 (completed_is_terminal_cancelled_is_not env_ok id_b1
                     (status_body "cancelled") (after id_b1 complete_body db0)
                     (with_status b1 "completed") _ _ _) _ _).
    + intros s; reflexivity.
    + vm_compute; reflexivity.
    + vm_compute; reflexivity.
    + reflexivity.
    + right; reflexivity.
  - refine (proj1 (proj2 (completed_is_terminal_cancelled_is_not env_ok id_b1
                     complete_body (after id_b1 (status_body "cancelled") db0)
                     (with_status b1 "cancelled") _ _ _)) _ _).
    + intros s; reflexivity.
    + vm_compute; reflexivity.
    + vm_compute; reflexivity.
    + reflexivity.
    + reflexivity.
  - refine (proj2 (proj2 (completed_is_terminal_cancelled_is_not env_ok id_b1
                     (status_body "pending") (after id_b1 (status_body "cancelled") db0)
                     (with_status b1 "cancelled") _ _ _)) _ _ "pending" _ _ _).
    + intros s; reflexivity.
    + vm_compute; reflexivity.
    + vm_compute; reflexivity.
    + reflexivity.
    + reflexivity.
    + reflexivity.
    + left; reflexivity.
    + reflexivity.
Defined.

(** Claim C5, as stated, fails in its second half: a cancel request on a
    booking that is already cancelled is not refused.  The cancellation
    branch is guarded by [existingBooking.status !== "cancelled"], so the
    request falls through to the regular update and answers 200. *)
Lemma repeated_cancel_is_accepted :
  let db1 := after id_b2 (status_body "cancelled") db0 in
  let r := updateBookingStatus env_ok id_b2 (status_body "cancelled") db1 in
  status_of id_b2 db1 = Some "cancelled"
  /\ r.1 = json (MessageBody "Booking cancelled successfully"
                   (Some {| doc := with_status b2 "cancelled"; populatedCar := Some c1 |}))
                200.
Proof. vm_compute. split; reflexivity. Qed.

(** Claim C5, amended.  A completion request on a completed booking is
    refused with 400 "Booking is already completed" and appends nothing: the
    collections are unchanged.  A cancel request on a cancelled booking is
    accepted with 200; it issues no second removal, and leaves the status
    ["cancelled"] and every car's schedule unchanged. *)
Theorem repeated_transition_leaves_cars env id body db b :
  NoFault env ->
  isValid env id = true ->
  bookings db !! id = Some b ->
  let r := updateBookingStatus env id body db in
  (status b = "completed" ->
   requests_complete body = true ->
   r = (json (ErrorBody "Booking is already completed") 400, db))
  /\ (status b = "cancelled" ->
      b_status body = Some "cancelled" ->
      b_action body <> Some "complete" ->
      runValidators env (update_of body) = true ->
      code r.1 = 200
      /\ cars r.2 = cars db
      /\ status_of id r.2 = Some "cancelled").
Proof.
  intros NF Hid Hb r. subst r. split.
  - intros Hs Hreq. rewrite (complete_refused env id body db b) by auto. by rewrite Hs.
  - intros Hs Hst Ha Hv.
    assert (Hreq : requests_complete body = false)
      by (by apply (not_complete_request body "cancelled")).
    rewrite (regular_succeeds env id body db b); try done.
    + unfold status_of. cbn [fst snd code json cars bookings with_bookings].
      split; [done|]. split; [done|].
      rewrite lookup_insert_eq. cbn. by rewrite Hst.
    + by rewrite Hst.
    + by rewrite Hs.
    + rewrite Hs. apply andb_false_r.
Qed.

Lemma repeated_transition_leaves_cars_witness :
  let db_done := after id_b1 complete_body db0 in
  let db_gone := after id_b1 (status_body "cancelled") db0 in
  updateBookingStatus env_ok id_b1 complete_body db_done
  = (json (ErrorBody "Booking is already completed") 400, db_done)
  /\ (code (updateBookingStatus env_ok id_b1 (status_body "cancelled") db_gone).1 = 200
      /\ cars (updateBookingStatus env_ok id_b1 (status_body "cancelled") db_gone).2
         = cars db_gone
      /\ status_of id_b1 (updateBookingStatus env_ok id_b1 (status_body "cancelled") db_gone).2
         = Some "cancelled").
Proof.
  cbv zeta. split.
  - refine (proj1 (repeated_transition_leaves_cars env_ok id_b1 complete_body
                     (after id_b1 complete_body db0) (with_status b1 "completed") _ _ _) _ _).
    + intros s; reflexivity.
    + vm_compute; reflexivity.
    + vm_compute; reflexivity.
    + reflexivity.
    + reflexivity.
  - refine (proj2 (repeated_transition_leaves_cars env_ok id_b1 (status_body "cancelled")
                     (after id_b1 (status_body "cancelled") db0)
                     (with_status b1 "cancelled") _ _ _) _ _ _ _).
    + intros s; reflexivity.
    + vm_compute; reflexivity.
    + vm_compute; reflexivity.
    + reflexivity.
    + reflexivity.
    + discriminate.
    + reflexivity.
Defined.

(** ** Invalid arguments *)

(** Claim C6, as stated, fails: [status = "completed"] is outside
    [{pending, confirmed, cancelled}] and the body carries no [action], yet
    the request is not refused; it is the second way of asking for a
    completion, reads the booking and writes both collections. *)
Lemma status_completed_is_not_rejected :
  let body := status_body "completed" in
  let r := updateBookingStatus env_ok id_b1 body db0 in
  b_action body = None
  /\ ~ In "completed" validStatuses
  /\ code r.1 = 200
  /\ status_of id_b1 db0 = Some "pending"
  /\ status_of id_b1 r.2 = Some "completed".
Proof.
  cbv zeta. split; [reflexivity|]. split.
  - cbn. intuition discriminate.
  - vm_compute. repeat split; reflexivity.
Qed.

(** Claim C6, amended.  Once the connection is up, a request whose booking
    identifier is malformed is refused with 400 "Invalid booking ID", and a
    request with a well-formed identifier, no [action = "complete"], and a
    [status] that is a non-empty string other than pending, confirmed,
    cancelled and completed is refused with 400 "Invalid status...".  Both
    answers are given whatever the collections hold and whatever any
    operation on them would do, and the collections are left as they
    were. *)
Theorem invalid_argument_rejected env id body db :
  fault env SConnect = None ->
  let r := updateBookingStatus env id body db in
  (isValid env id = false ->
   r = (json (ErrorBody "Invalid booking ID") 400, db))
  /\ (isValid env id = true ->
      b_action body <> Some "complete" ->
      forall s, b_status body = Some s ->
                s <> "" ->
                ~ In s ["pending"; "confirmed"; "cancelled"; "completed"] ->
                r = (json (ErrorBody
                             "Invalid status. Use action: 'complete' for completing bookings.")
                          400,
                     db)).
Proof.
  intros Hconn r. subst r. split.
  - intros Hid. run_request. rewrite Hconn. reduce. by rewrite Hid.
  - intros Hid Ha s Hst Hne Hout.
    assert (Hreq : requests_complete body = false).
    { apply (not_complete_request body s); [done| |done].
      intros ->. apply Hout. cbn. tauto. }
    unfold requests_complete in Hreq.
    assert (Ht : truthy (b_status body) = true).
    { rewrite Hst. cbn. by apply negb_true_iff, String.eqb_neq. }
    assert (Hincl : includes validStatuses (b_status body) = false).
    { rewrite Hst. unfold includes, validStatuses. cbn [existsb strictEq].
      repeat (apply orb_false_iff; split); try done;
        apply String.eqb_neq; intros ->; apply Hout; cbn; tauto. }
    run_request. rewrite Hconn. reduce. rewrite Hid, Hreq. reduce.
    by rewrite Ht, Hincl.
Qed.

Lemma invalid_argument_rejected_witness :
  updateBookingStatus (env_failing SRegularFind) "not-an-object-id"
    (status_body "confirmed") db0
  = (json (ErrorBody "Invalid booking ID") 400, db0)
  /\ updateBookingStatus (env_failing SRegularFind) id_b1 (status_body "archived") db0
     = (json (ErrorBody "Invalid status. Use action: 'complete' for completing bookings.")
          400,
        db0).
Proof.
  split.
  - refine (proj1 (invalid_argument_rejected (env_failing SRegularFind) "not-an-object-id"
                     (status_body "confirmed") db0 _) _).
    + reflexivity.
    + vm_compute; reflexivity.
  - refine (proj2 (invalid_argument_rejected (env_failing SRegularFind) id_b1
                     (status_body "archived") db0 _) _ _ "archived" _ _ _).
    + reflexivity.
    + vm_compute; reflexivity.
    + discriminate.
    + reflexivity.
    + discriminate.
    + cbn. intuition discriminate.
Defined.

(** ** Edge cases of the schedule mutation *)

(** Claim C7, as stated, fails for the cancellation: the completion tests
    [date.length > 0] before it updates the car, the cancellation tests only
    that [schedule.date] is there.  For a booking whose [date] is the empty
    array the cancellation still issues the [$pull], with [$in: []]; the
    call matches nothing, but it is made, and when it fails the cancellation
    answers 500 and is rolled back.  The completion of the same booking
    succeeds where the car update would fail, because it is never issued. *)
Lemma zero_date_cancel_still_issues_the_pull :
  schedule_date b4 = Some []
  /\ updateBookingStatus (env_failing SCancelPull) id_b4 (status_body "cancelled") db0
     = (json (ErrorBody "Failed to update booking") 500, db0)
  /\ code (updateBookingStatus (env_failing SCompletePush) id_b4 complete_body db0).1
     = 200.
Proof. vm_compute. repeat split; reflexivity. Qed.

(** Claim C7, amended.  For a pending or confirmed booking that occupies no
    date (no schedule, no [date], or an empty [date]):
    - a completion writes the status ["completed"], answers 200 and does not
      issue the car update at all: it succeeds whatever that call would do,
      and no car is changed;
    - a cancellation, when no call fails, writes the status ["cancelled"],
      answers 200 and leaves every car's schedule unchanged;
    - the cancellation skips the car update only when the booking has no
      [schedule.date]; with an empty [date] array it issues the [$pull],
      which matches nothing, and a failure of that call makes the
      cancellation answer 500 with nothing written. *)
Theorem zero_dates_complete_skips_cancel_pulls_nothing env id body db b :
  isValid env id = true ->
  bookings db !! id = Some b ->
  status b = "pending" \/ status b = "confirmed" ->
  occupied b = [] ->
  let r := updateBookingStatus env id body db in
  (requests_complete body = true ->
   (forall s, s <> SCompletePush -> fault env s = None) ->
   code r.1 = 200
   /\ r.2 = {| bookings := <[id := with_status b "completed"]> (bookings db);
               cars := cars db |})
  /\ (b_status body = Some "cancelled" ->
      b_action body <> Some "complete" ->
      runValidators env (update_of (spread_status body "cancelled")) = true ->
      (NoFault env ->
       code r.1 = 200
       /\ status_of id r.2 = Some "cancelled"
       /\ cars r.2 = cars db)
      /\ (schedule_date b = None ->
          (forall s, s <> SCancelPull -> fault env s = None) ->
          code r.1 = 200
          /\ status_of id r.2 = Some "cancelled"
          /\ cars r.2 = cars db)
      /\ (schedule_date b = Some [] ->
          (forall s, s <> SCancelPull -> fault env s = None) ->
          fault env SCancelPull <> None ->
          r = (json (ErrorBody "Failed to update booking") 500, db))).
Proof.
  intros Hid Hb [Hs1 Hs2]%open_status_eqb Hocc r. subst r. split.
  - intros Hreq NF. unfold requests_complete in Hreq.
    run_request. destruct (fault env SCompletePush) as [e|] eqn:Hpush.
    all: rewrite !NF by discriminate; reduce; rewrite Hid; reduce; rewrite Hreq; reduce.
    all: rewrite Hb, Hs1, Hs2; reduce; rewrite Hb; reduce.
    all: unfold occupied in Hocc;
         destruct (schedule_date b) as [[|d dates]|]; cbn [default] in Hocc;
         try discriminate Hocc;
         reduce; rewrite ?lookup_insert_eq; reduce.
    all: split; [done | by destruct db].
  - intros Hst Ha Hv.
    assert (Hreq : requests_complete body = false)
      by (by apply (not_complete_request body "cancelled")).
    split; [|split].
    + intros NF. rewrite (cancel_succeeds env id body db b) by done.
      unfold status_of. cbn [fst snd code json cars bookings].
      split; [done|]. split; [by rewrite lookup_insert_eq|].
      unfold cars_after_cancel. unfold occupied in Hocc.
      destruct (schedule_date b) as [dates|]; [|done].
      cbn in Hocc. subst dates.
      rewrite (update_car_ext _ _ (fun sched => sched)) by apply pull_blocked_nil.
      apply update_car_id.
    + intros Hd NF. unfold requests_complete in Hreq. unfold status_of.
      run_request. destruct (fault env SCancelPull) as [e|] eqn:Hpull.
      all: rewrite !NF by discriminate; reduce; rewrite Hid; reduce; rewrite Hreq; reduce.
      all: rewrite Hst;
           change (truthy (Some "cancelled")
                   && negb (includes validStatuses (Some "cancelled"))) with false;
           change (truthy (Some "cancelled")) with true;
           change (strictEq (Some "cancelled") "cancelled") with true;
           reduce; rewrite Hb; reduce; rewrite Hs1, Hs2; reduce.
      all: unfold Booking_findByIdAndUpdate; reduce; rewrite Hv; reduce;
           rewrite Hb; reduce; rewrite Hd; reduce.
      all: rewrite lookup_insert_eq; done.
    + intros Hd NF Hpull. unfold requests_complete in Hreq.
      run_request. destruct (fault env SCancelPull) as [e|]; [|done].
      rewrite !NF by discriminate. reduce. rewrite Hid. reduce. rewrite Hreq. reduce.
      rewrite Hst.
      change (truthy (Some "cancelled")
              && negb (includes validStatuses (Some "cancelled"))) with false.
      change (truthy (Some "cancelled")) with true.
      change (strictEq (Some "cancelled") "cancelled") with true.
      reduce. rewrite Hb. reduce. rewrite Hs1, Hs2. reduce.
      unfold Booking_findByIdAndUpdate. reduce. rewrite Hv. reduce.
      rewrite Hb. reduce. rewrite Hd. reduce. done.
Qed.

Lemma zero_dates_complete_skips_cancel_pulls_nothing_witness :
  occupied b4 = []
  /\ (code (updateBookingStatus (env_failing SCompletePush) id_b4 complete_body db0).1
      = 200
      /\ (updateBookingStatus (env_failing SCompletePush) id_b4 complete_body db0).2
         = {| bookings := <[id_b4 := with_status b4 "completed"]> (bookings db0);
              cars := cars db0 |})
  /\ (code (updateBookingStatus env_ok id_b4 (status_body "cancelled") db0).1 = 200
      /\ status_of id_b4 (updateBookingStatus env_ok id_b4 (status_body "cancelled") db0).2
         = Some "cancelled"
      /\ cars (updateBookingStatus env_ok id_b4 (status_body "cancelled") db0).2
         = cars db0)
  /\ updateBookingStatus (env_failing SCancelPull) id_b4 (status_body "cancelled") db0
     = (json (ErrorBody "Failed to update booking") 500, db0).
Proof.
  split; [reflexivity|]. split; [|split].
  - refine (proj1 (zero_dates_complete_skips_cancel_pulls_nothing
                     (env_failing SCompletePush) id_b4 complete_body db0 b4 _ _ _ _) _ _).
    + vm_compute; reflexivity.
    + vm_compute; reflexivity.
    + right; reflexivity.
    + reflexivity.
    + reflexivity.
    + intros s Hs. destruct s; try reflexivity. by destruct Hs.
  - refine (proj1 (proj2 (zero_dates_complete_skips_cancel_pulls_nothing
                            env_ok id_b4 (status_body "cancelled") db0 b4 _ _ _ _)
                     _ _ _) _).
    + vm_compute; reflexivity.
    + vm_compute; reflexivity.
    + right; reflexivity.
    + reflexivity.
    + reflexivity.
    + discriminate.
    + reflexivity.
    + intros s; reflexivity.
  - refine (proj2 (proj2 (proj2 (zero_dates_complete_skips_cancel_pulls_nothing
                                   (env_failing SCancelPull) id_b4
                                   (status_body "cancelled") db0 b4 _ _ _ _)
                            _ _ _)) _ _ _).
    + vm_compute; reflexivity.
    + vm_compute; reflexivity.
    + right; reflexivity.
    + reflexivity.
    + reflexivity.
    + discriminate.
    + reflexivity.
    + reflexivity.
    + intros s Hs. destruct s; try reflexivity. by destruct Hs.
    + discriminate.
Defined.

(** Claim C8, as stated, fails: when the referenced car does not exist the
    schedule update matches no document and resolves like any other; the
    route does not look at its result, and the response is the plain
    success, with the car reference populated as [null]. *)
Lemma missing_car_is_not_reported :
  cars db0 !! carId b3 = None
  /\ updateBookingStatus env_ok id_b3 complete_body db0
     = (json (MessageBody "Booking completed successfully"
                (Some {| doc := with_status b3 "completed"; populatedCar := None |}))
             200,
        with_bookings db0 (<[id_b3 := with_status b3 "completed"]> (bookings db0)))
  /\ (updateBookingStatus env_ok id_b3 (status_body "cancelled") db0).1
     = json (MessageBody "Booking cancelled successfully"
               (Some {| doc := with_status b3 "cancelled"; populatedCar := None |}))
            200.
Proof. vm_compute. repeat split; reflexivity. Qed.

(** Claim C8, amended.  When the referenced car record does not exist, the
    schedule-mutation step of a completion or a cancellation matches
    nothing, changes nothing and reports nothing: the request answers 200
    with the ordinary success message, the booking's status is written, and
    the cars are as they were. *)
Theorem missing_car_changes_nothing env id body db b :
  NoFault env ->
  isValid env id = true ->
  bookings db !! id = Some b ->
  status b = "pending" \/ status b = "confirmed" ->
  cars db !! carId b = None ->
  let r := updateBookingStatus env id body db in
  (requests_complete body = true ->
   r = (json (MessageBody "Booking completed successfully"
                (Some {| doc := with_status b "completed"; populatedCar := None |}))
             200,
        with_bookings db (<[id := with_status b "completed"]> (bookings db))))
  /\ (b_status body = Some "cancelled" ->
      b_action body <> Some "complete" ->
      runValidators env (update_of (spread_status body "cancelled")) = true ->
      r = (json (MessageBody "Booking cancelled successfully"
                   (Some {| doc := applyUpdate (update_of (spread_status body "cancelled")) b;
                            populatedCar := None |}))
                200,
           with_bookings db
             (<[id := applyUpdate (update_of (spread_status body "cancelled")) b]>
                (bookings db)))).
Proof.
  intros NF Hid Hb [Hs1 Hs2]%open_status_eqb Hc r. subst r.
  assert (Hpush : cars_after_complete b (cars db) = cars db).
  { unfold cars_after_complete, update_car. rewrite Hc. by destruct (occupied b). }
  assert (Hpull : cars_after_cancel b (cars db) = cars db).
  { unfold cars_after_cancel, update_car. rewrite Hc. by destruct (schedule_date b). }
  split.
  - intros Hreq. rewrite (complete_succeeds env id body db b) by done.
    by rewrite Hpush, Hc.
  - intros Hst Ha Hv.
    assert (Hreq : requests_complete body = false)
      by (by apply (not_complete_request body "cancelled")).
    rewrite (cancel_succeeds env id body db b) by done.
    by rewrite Hpull, Hc.
Qed.

Lemma missing_car_changes_nothing_witness :
  cars (updateBookingStatus env_ok id_b3 complete_body db0).2 = cars db0
  /\ cars (updateBookingStatus env_ok id_b3 (status_body "cancelled") db0).2 = cars db0.
Proof.
  pose proof (missing_car_changes_nothing env_ok id_b3 complete_body db0 b3) as H1.
  pose proof (missing_car_changes_nothing env_ok id_b3 (status_body "cancelled") db0 b3) as H2.
  split.
  - destruct H1 as [H _].
    + intros s; reflexivity.
    + vm_compute; reflexivity.
    + vm_compute; reflexivity.
    + left; reflexivity.
    + vm_compute; reflexivity.
    + cbv zeta in H. rewrite H; reflexivity.
  - destruct H2 as [_ H].
    + intros s; reflexivity.
    + vm_compute; reflexivity.
    + vm_compute; reflexivity.
    + left; reflexivity.
    + vm_compute; reflexivity.
    + cbv zeta in H. rewrite H; [reflexivity | reflexivity | discriminate | reflexivity].
Defined.

(** ** Customer information *)

(** Claim C9, as stated, fails: the regular update passes the whole body to
    [findByIdAndUpdate], so a confirm request that also carries a
    [customerInfo] replaces the one stored with the booking. *)
Lemma confirm_overwrites_customerInfo :
  let body := {| b_status := Some "confirmed"; b_action := None;
                 b_customerInfo := Some brian |} in
  let r := updateBookingStatus env_ok id_b1 body db0 in
  customerInfo <$> bookings db0 !! id_b1 = Some alice
  /\ code r.1 = 200
  /\ customerInfo <$> bookings r.2 !! id_b1 = Some brian
  /\ alice <> brian.
Proof.
  cbv zeta. split; [vm_compute; reflexivity|]. split; [vm_compute; reflexivity|].
  split; [vm_compute; reflexivity|]. discriminate.
Qed.

(** Claim C9, amended.  The customer information is protected on the
    completion path only.  Whatever the storage layer does:
    - a completion request leaves the booking's customer information as it
      was, and its outcome does not depend on what else the body carries
      ([handleCompleteBooking] is given the identifier alone);
    - a confirm or cancel request whose body carries nothing but [status]
      and [action] leaves it as it was;
    - a confirm or cancel request whose body also carries a [customerInfo]
      object, and that succeeds, stores that object with the booking. *)
Theorem customerInfo_changes_only_through_body env id body db b :
  bookings db !! id = Some b ->
  let r := updateBookingStatus env id body db in
  (requests_complete body = true ->
   customerInfo <$> bookings r.2 !! id = Some (customerInfo b)
   /\ forall body', requests_complete body' = true ->
                    updateBookingStatus env id body' db = r)
  /\ (body = {| b_status := b_status body; b_action := b_action body;
                b_customerInfo := None |} ->
      customerInfo <$> bookings r.2 !! id = Some (customerInfo b))
  /\ (forall info,
        requests_complete body = false ->
        b_customerInfo body = Some info ->
        code r.1 = 200 ->
        customerInfo <$> bookings r.2 !! id = Some info).
Proof.
  intros Hb r. subst r.
  assert (Hindep : forall body', requests_complete body = true ->
                     requests_complete body' = true ->
                     updateBookingStatus env id body' db = updateBookingStatus env id body db).
  { intros body' H H'. unfold requests_complete in H, H'.
    unfold updateBookingStatus, handleRequest, PATCH, request_json, try_catch, bind, await.
    destruct (fault env SConnect); [done|]. reduce.
    destruct (isValid env id); reduce; [|done]. by rewrite H, H'. }
  assert (Hnone : body = {| b_status := b_status body; b_action := b_action body;
                            b_customerInfo := None |} -> b_customerInfo body = None).
  { intros ->. reflexivity. }
  destruct (request_cases env id body db)
    as [[Hs Hcode]
       |[(b0 & Hb0 & Hreq & Hs & _)
        |[(b0 & Hb0 & Hreq & Hst & Hs & _)|(b0 & Hb0 & Hreq & Hs & _)]]];
    cbv zeta in *; rewrite Hs;
    try (rewrite Hb in Hb0; injection Hb0 as <-);
    cbn [bookings with_bookings]; rewrite ?lookup_insert_eq, ?Hb; cbn [fmap option_fmap option_map].
  - split; [|split]; [| done |].
    + intros Hreq. split; [done|]. intros body' H'. by apply Hindep.
    + intros info _ _ Hok. done.
  - split; [|split].
    + intros _. split; [done|]. intros body' H'. by apply Hindep.
    + done.
    + intros info Hno. congruence.
  - split; [|split].
    + congruence.
    + intros Hnone'%Hnone. cbn. by rewrite Hnone'.
    + intros info _ Hinfo _. cbn. by rewrite Hinfo.
  - split; [|split].
    + congruence.
    + intros Hnone'%Hnone. cbn. by rewrite Hnone'.
    + intros info _ Hinfo _. cbn. by rewrite Hinfo.
Qed.

Lemma customerInfo_changes_only_through_body_witness :
  let extra := {| b_status := None; b_action := Some "complete";
                  b_customerInfo := Some brian |} in
  let edit := {| b_status := Some "cancelled"; b_action := None;
                 b_customerInfo := Some brian |} in
  customerInfo <$> bookings (updateBookingStatus env_ok id_b1 extra db0).2 !! id_b1
  = Some alice
  /\ updateBookingStatus env_ok id_b1 complete_body db0
     = updateBookingStatus env_ok id_b1 extra db0
  /\ customerInfo
       <$> bookings (updateBookingStatus env_ok id_b1 (status_body "confirmed") db0).2
           !! id_b1
     = Some alice
  /\ customerInfo <$> bookings (updateBookingStatus env_ok id_b1 edit db0).2 !! id_b1
     = Some brian.
Proof.
  cbv zeta. split; [|split; [|split]].
  - refine (proj1 (proj1 (customerInfo_changes_only_through_body env_ok id_b1
                            {| b_status := None; b_action := Some "complete";
                               b_customerInfo := Some brian |} db0 b1 _) _)).
    + vm_compute; reflexivity.
    + reflexivity.
  - refine (proj2 (proj1 (customerInfo_changes_only_through_body env_ok id_b1
                            {| b_status := None; b_action := Some "complete";
                               b_customerInfo := Some brian |} db0 b1 _) _)
              complete_body _).
    + vm_compute; reflexivity.
    + reflexivity.
    + reflexivity.
  - refine (proj1 (proj2 (customerInfo_changes_only_through_body env_ok id_b1
                            (status_body "confirmed") db0 b1 _)) _).
    + vm_compute; reflexivity.
    + reflexivity.
  - refine (proj2 (proj2 (customerInfo_changes_only_through_body env_ok id_b1
                            {| b_status := Some "cancelled"; b_action := None;
                               b_customerInfo := Some brian |} db0 b1 _)) brian _ _ _).
    + vm_compute; reflexivity.
    + reflexivity.
    + reflexivity.
    + vm_compute; reflexivity.
Defined.

(** ** Confirmation *)

(** Claim C10.  On a booking that is already confirmed, the request
    [{status: "confirmed"}] succeeds with 200 and the message "Booking
    confirmed successfully"; the booking stays confirmed and neither
    collection changes, so no car's schedule is touched. *)
Theorem confirm_is_idempotent env id db b :
  NoFault env ->
  isValid env id = true ->
  runValidators env (update_of (status_body "confirmed")) = true ->
  bookings db !! id = Some b ->
  status b = "confirmed" ->
  updateBookingStatus env id (status_body "confirmed") db =
    (json (MessageBody "Booking confirmed successfully"
             (Some {| doc := b; populatedCar := cars db !! carId b |}))
          200,
     db).
Proof.
  intros NF Hid Hv Hb Hs.
  assert (Hsame : applyUpdate (update_of (status_body "confirmed")) b = b).
  { destruct b. cbn in *. by subst. }
  rewrite (regular_succeeds env id (status_body "confirmed") db b); try done.
  - cbv zeta. rewrite Hsame, (insert_id (bookings db) id b Hb). by destruct db.
  - by rewrite Hs.
Qed.

Lemma confirm_is_idempotent_witness :
  status b2 = "confirmed"
  /\ updateBookingStatus env_ok id_b2 (status_body "confirmed") db0 =
       (json (MessageBody "Booking confirmed successfully"
                (Some {| doc := b2; populatedCar := cars db0 !! carId b2 |}))
             200,
        db0).
Proof.
  split; [reflexivity|].
  apply (confirm_is_idempotent env_ok id_b2 db0 b2).
  - intros s; reflexivity.
  - vm_compute; reflexivity.
  - reflexivity.
  - vm_compute; reflexivity.
  - reflexivity.
Defined.

(** * Further properties of the route *)

Lemma update_car_lookup k f cs k' :
  update_car k f cs !! k'
  = if decide (k = k')
    then (fun c => with_schedule c (f (car_schedule c))) <$> cs !! k
    else cs !! k'.
Proof.
  unfold update_car. destruct (decide (k = k')) as [<-|Hne].
  - destruct (cs !! k) as [c|] eqn:Hc; [by rewrite lookup_insert_eq | by rewrite Hc].
  - destruct (cs !! k) as [c|]; [by rewrite lookup_insert_ne | done].
Qed.

Lemma cars_after_complete_push b cs :
  cars_after_complete b cs
  = update_car (carId b) (push_each (scheduleEntries (occupied b))) cs.
Proof.
  unfold cars_after_complete. destruct (occupied b) as [|d dates] eqn:Hocc; [|done].
  rewrite (update_car_ext _ _ (fun sched => sched)); [by rewrite update_car_id|].
  intros sched. unfold push_each. cbn. apply app_nil_r.
Qed.

Lemma cars_after_cancel_pull b cs :
  cars_after_cancel b cs = update_car (carId b) (pull_blocked (occupied b)) cs.
Proof.
  unfold cars_after_cancel, occupied. destruct (schedule_date b) as [dates|]; [done|].
  cbn [default]. rewrite (update_car_ext _ _ (fun sched => sched)) by apply pull_blocked_nil.
  by rewrite update_car_id.
Qed.

(** What a request does to the cars: nothing, or one update of the schedule
    of the car the booking refers to, an append for a completion and a pull
    for anything else. *)
Lemma request_cars env id body db :
  cars (updateBookingStatus env id body db).2 = cars db
  \/ exists b f,
       bookings db !! id = Some b
       /\ cars (updateBookingStatus env id body db).2 = update_car (carId b) f (cars db)
       /\ (if requests_complete body
           then f = push_each (scheduleEntries (occupied b))
           else f = pull_blocked (occupied b)).
Proof.
  destruct (request_cases env id body db)
    as [[Hs _]
       |[(b & Hb & Hreq & Hs & _)
        |[(b & Hb & Hreq & _ & Hs & _)|(b & Hb & Hreq & Hs & _)]]];
    cbv zeta in *; rewrite Hs.
  - by left.
  - right. exists b, (push_each (scheduleEntries (occupied b))).
    rewrite Hreq. cbn [cars]. by rewrite cars_after_complete_push.
  - right. exists b, (pull_blocked (occupied b)).
    rewrite Hreq. cbn [cars]. by rewrite cars_after_cancel_pull.
  - by left.
Qed.

Lemma request_bookings env id body db id' :
  id' <> id ->
  bookings (updateBookingStatus env id body db).2 !! id' = bookings db !! id'.
Proof.
  intros Hne.
  destruct (request_cases env id body db)
    as [[Hs _]
       |[(b & Hb & Hreq & Hs & _)
        |[(b & Hb & Hreq & _ & Hs & _)|(b & Hb & Hreq & Hs & _)]]];
    cbv zeta in *; rewrite Hs; cbn [bookings with_bookings];
    by rewrite ?lookup_insert_ne.
Qed.

(** X1.  A request for the booking with identifier [id], written in
    canonical form, leaves every other booking as it was, leaves every car
    as it was except the one this booking refers to, and never changes the
    model or registration number of any car nor adds or removes a car,
    whatever the body and whatever fails. *)
Theorem request_touches_one_booking_one_car env id body db :
  canonicalId id = true ->
  (forall id', id' <> id ->
     bookings (updateBookingStatus env id body db).2 !! id' = bookings db !! id')
  /\ (forall k, (forall b, bookings db !! id = Some b -> carId b <> k) ->
        cars (updateBookingStatus env id body db).2 !! k = cars db !! k)
  /\ (forall k,
        (fun c => (model c, registrationNumber c))
          <$> cars (updateBookingStatus env id body db).2 !! k
        = (fun c => (model c, registrationNumber c)) <$> cars db !! k).
Proof.
  intros _. split; [|split].
  - intros id' Hne. by apply request_bookings.
  - intros k Hk. destruct (request_cars env id body db) as [->|(b & f & Hb & -> & _)]; [done|].
    rewrite update_car_lookup. destruct (decide (carId b = k)) as [Heq|]; [|done].
    by destruct (Hk b Hb).
  - intros k. destruct (request_cars env id body db) as [->|(b & f & Hb & -> & _)]; [done|].
    rewrite update_car_lookup. destruct (decide (carId b = k)) as [<-|]; [|done].
    by destruct (cars db !! carId b).
Qed.

Lemma request_touches_one_booking_one_car_witness :
  bookings (updateBookingStatus env_ok id_b1 complete_body db0).2 !! id_b2 = Some b2
  /\ cars (updateBookingStatus env_ok id_b3 complete_body db0).2 !! id_c1 = Some c1.
Proof.
  destruct (request_touches_one_booking_one_car env_ok id_b1 complete_body db0)
    as [H1 _]; [reflexivity|].
  destruct (request_touches_one_booking_one_car env_ok id_b3 complete_body db0)
    as [_ [H2 _]]; [reflexivity|].
  split.
  - rewrite H1; [vm_compute; reflexivity | discriminate].
  - rewrite H2; [vm_compute; reflexivity|].
    intros b Hb. vm_compute in Hb. injection Hb as <-. discriminate.
Defined.

Lemma pull_blocked_sublist dates sched : sublist (pull_blocked dates sched) sched.
Proof.
  unfold pull_blocked. induction sched as [|e sched IH]; [done|].
  cbn [List.filter]. destruct (negb (pull_matches dates e)).
  - by apply sublist_skip.
  - by apply sublist_cons.
Qed.

(** X2.  A completion request only appends to a car's schedule (the old
    schedule is a prefix of the new one), and any other request only removes
    from it (the new schedule is the old one with entries left out, in the
    same order), whatever fails. *)
Theorem schedule_grows_on_completion_only env id body db k c :
  cars db !! k = Some c ->
  exists c',
    cars (updateBookingStatus env id body db).2 !! k = Some c'
    /\ (if requests_complete body
        then exists added, car_schedule c' = (car_schedule c ++ added)%list
        else sublist (car_schedule c') (car_schedule c)).
Proof.
  intros Hc.
  destruct (request_cars env id body db) as [->|(b & f & Hb & -> & Hf)].
  - exists c. split; [done|]. destruct (requests_complete body); [|done].
    exists []. by rewrite app_nil_r.
  - rewrite update_car_lookup. destruct (decide (carId b = k)) as [<-|].
    + rewrite Hc. eexists. split; [reflexivity|]. cbn [car_schedule with_schedule].
      destruct (requests_complete body); subst f.
      * by eexists.
      * apply pull_blocked_sublist.
    + exists c. split; [done|]. destruct (requests_complete body); [|done].
      exists []. by rewrite app_nil_r.
Qed.

Lemma schedule_grows_on_completion_only_witness :
  exists c',
    cars (updateBookingStatus env_ok id_b1 complete_body db0).2 !! id_c1 = Some c'
    /\ exists added, car_schedule c' = (car_schedule c1 ++ added)%list.
Proof.
  apply (schedule_grows_on_completion_only env_ok id_b1 complete_body db0 id_c1 c1).
  vm_compute; reflexivity.
Defined.

(** X3.  No request ever removes a schedule entry whose [available] is
    [true] or [false]: the availability a car's owner entered, and the
    blocks of the standalone completion route, survive every completion
    and every cancellation, whatever fails. *)
Theorem availability_entries_are_never_removed env id body db k c e :
  cars db !! k = Some c ->
  In e (car_schedule c) ->
  available e <> None ->
  exists c',
    cars (updateBookingStatus env id body db).2 !! k = Some c'
    /\ In e (car_schedule c').
Proof.
  intros Hc Hin Hav.
  destruct (request_cars env id body db) as [->|(b & f & Hb & -> & Hf)]; [by exists c|].
  rewrite update_car_lookup. destruct (decide (carId b = k)) as [<-|]; [|by exists c].
  rewrite Hc. eexists. split; [reflexivity|]. cbn [car_schedule with_schedule].
  destruct (requests_complete body); subst f.
  - unfold push_each. apply in_or_app. by left.
  - apply pull_blocked_spec. split; [done|]. by intros [Hnone _].
Qed.

Lemma availability_entries_are_never_removed_witness :
  exists c',
    cars (updateBookingStatus env_ok id_b1 (status_body "cancelled") db0).2 !! id_c1
    = Some c'
    /\ In {| date := [1719792000000]; available := Some true |} (car_schedule c').
Proof.
  apply (availability_entries_are_never_removed env_ok id_b1 (status_body "cancelled")
           db0 id_c1 c1).
  - vm_compute; reflexivity.
  - left; reflexivity.
  - discriminate.
Defined.

Lemma unknown_booking env id body db :
  NoFault env ->
  isValid env id = true ->
  bookings db !! id = None ->
  requests_complete body = true
  \/ truthy (b_status body) && negb (includes validStatuses (b_status body)) = false ->
  updateBookingStatus env id body db = (json (ErrorBody "Booking not found") 404, db).
Proof.
  intros NF Hid Hb Hkind.
  destruct (requests_complete body) eqn:Hreq; unfold requests_complete in Hreq.
  - run_request. rewrite !NF. reduce. rewrite Hid, Hreq. reduce. by rewrite Hb.
  - destruct Hkind as [|Hvalid]; [done|].
    run_request. rewrite !NF. reduce. rewrite Hid, Hreq. reduce.
    rewrite Hvalid. reduce. by rewrite Hb.
Qed.

(** X4.  A request whose identifier is well formed, written in canonical
    form, and names no booking answers 404 "Booking not found" and changes
    nothing, on the completion path and on the regular path alike (there
    once the status, if any, has passed the validity test). *)
Theorem unknown_booking_is_not_found env id body db :
  NoFault env ->
  isValid env id = true ->
  canonicalId id = true ->
  bookings db !! id = None ->
  requests_complete body = true
  \/ truthy (b_status body) && negb (includes validStatuses (b_status body)) = false ->
  updateBookingStatus env id body db = (json (ErrorBody "Booking not found") 404, db).
Proof. intros NF Hid _ Hb Hkind. by apply unknown_booking. Qed.

Lemma unknown_booking_is_not_found_witness :
  updateBookingStatus env_ok id_gone complete_body db0
  = (json (ErrorBody "Booking not found") 404, db0)
  /\ updateBookingStatus env_ok id_gone (status_body "confirmed") db0
     = (json (ErrorBody "Booking not found") 404, db0).
Proof.
  split.
  - apply (unknown_booking_is_not_found env_ok id_gone complete_body db0).
    + intros s; reflexivity.
    + vm_compute; reflexivity.
    + reflexivity.
    + vm_compute; reflexivity.
    + left; reflexivity.
  - apply (unknown_booking_is_not_found env_ok id_gone (status_body "confirmed") db0).
    + intros s; reflexivity.
    + vm_compute; reflexivity.
    + reflexivity.
    + vm_compute; reflexivity.
    + right; reflexivity.
Defined.

Lemma invalid_id_rejected env id body db :
  fault env SConnect = None ->
  isValid env id = false ->
  updateBookingStatus env id body db = (json (ErrorBody "Invalid booking ID") 400, db).
Proof. intros Hconn Hid. run_request. rewrite Hconn. reduce. by rewrite Hid. Qed.

Lemma invalid_status_rejected env id body db :
  fault env SConnect = None ->
  isValid env id = true ->
  requests_complete body = false ->
  truthy (b_status body) && negb (includes validStatuses (b_status body)) = true ->
  updateBookingStatus env id body db =
    (json (ErrorBody "Invalid status. Use action: 'complete' for completing bookings.") 400,
     db).
Proof.
  intros Hconn Hid Hreq Hbad. unfold requests_complete in Hreq.
  run_request. rewrite Hconn. reduce. rewrite Hid, Hreq. reduce. by rewrite Hbad.
Qed.

(** X5.  Sending the same completion request twice blocks the dates once:
    the second request leaves the collections as the first left them, and
    when the first succeeded the second is refused with 400 "Booking is
    already completed". *)
Theorem completion_twice_blocks_once env id body db :
  NoFault env ->
  requests_complete body = true ->
  let first := updateBookingStatus env id body db in
  let second := updateBookingStatus env id body first.2 in
  second.2 = first.2
  /\ (code first.1 = 200 ->
      second.1 = json (ErrorBody "Booking is already completed") 400).
Proof.
  intros NF Hreq first second. subst first second.
  destruct (isValid env id) eqn:Hid.
  2: { rewrite !(invalid_id_rejected env id body) by done. split; [done|]. by intros [=]. }
  destruct (bookings db !! id) as [b|] eqn:Hb.
  2: { rewrite !(unknown_booking env id body db) by auto.
       cbn [fst snd]. rewrite (unknown_booking env id body db) by auto.
       split; [done|]. by intros [=]. }
  destruct (String.eqb (status b) "completed") eqn:Hs1.
  { apply String.eqb_eq in Hs1.
    rewrite !(complete_refused env id body db b) by auto. cbn [fst snd].
    rewrite (complete_refused env id body db b) by auto.
    split; [done|]. by intros [=]. }
  destruct (String.eqb (status b) "cancelled") eqn:Hs2.
  { apply String.eqb_eq in Hs2.
    rewrite !(complete_refused env id body db b) by auto. cbn [fst snd].
    rewrite (complete_refused env id body db b) by auto.
    split; [done|]. by intros [=]. }
  rewrite !(complete_succeeds env id body db b) by done. cbn [fst snd].
  rewrite (complete_refused env id body _ (with_status b "completed")); try done.
  - by cbn [bookings]; rewrite lookup_insert_eq.
  - by left.
Qed.

Lemma completion_twice_blocks_once_witness :
  let first := updateBookingStatus env_ok id_b1 complete_body db0 in
  let second := updateBookingStatus env_ok id_b1 complete_body first.2 in
  code first.1 = 200
  /\ second.2 = first.2
  /\ second.1 = json (ErrorBody "Booking is already completed") 400.
Proof.
  cbv zeta.
  destruct (completion_twice_blocks_once env_ok id_b1 complete_body db0) as [H1 H2].
  - intros s; reflexivity.
  - reflexivity.
  - cbv zeta in H1, H2. split; [vm_compute; reflexivity|]. split; [exact H1|].
    apply H2. vm_compute; reflexivity.
Defined.

(** X6.  For a request whose body is a JSON object, when no awaited call
    fails and the schema's validators accept every update, the route never
    answers 500: every response is 200, 400 or 404.  A request with a
    well-formed identifier whose body is not a JSON object is answered 500
    "Failed to update booking" without any storage failure, by the [catch]
    around [request.json()], and changes nothing. *)
Theorem no_server_error_without_failure env id body db :
  NoFault env ->
  (forall u, runValidators env u = true) ->
  In (code (updateBookingStatus env id body db).1) [200; 400; 404]
  /\ (isValid env id = true ->
      handleRequest env id NotAnObject db
      = (json (ErrorBody "Failed to update booking") 500, db)).
Proof.
  intros NF Hv. split.
  2: { intros Hid. unfold handleRequest, PATCH, request_json, try_catch, bind, await, throw.
       rewrite NF. reduce. by rewrite Hid. }
  destruct (isValid env id) eqn:Hid.
  2: { rewrite (invalid_id_rejected env id body) by done. cbn. tauto. }
  destruct (requests_complete body) eqn:Hreq.
  - destruct (bookings db !! id) as [b|] eqn:Hb.
    2: { rewrite (unknown_booking env id body db) by auto. cbn. tauto. }
    destruct (String.eqb (status b) "completed") eqn:Hs1.
    { apply String.eqb_eq in Hs1.
      rewrite (complete_refused env id body db b) by auto. cbn. tauto. }
    destruct (String.eqb (status b) "cancelled") eqn:Hs2.
    { apply String.eqb_eq in Hs2.
      rewrite (complete_refused env id body db b) by auto. cbn. tauto. }
    rewrite (complete_succeeds env id body db b) by done. cbn. tauto.
  - destruct (truthy (b_status body) && negb (includes validStatuses (b_status body)))
      eqn:Hvalid.
    { rewrite (invalid_status_rejected env id body db) by done. cbn. tauto. }
    destruct (bookings db !! id) as [b|] eqn:Hb.
    2: { rewrite (unknown_booking env id body db) by auto. cbn. tauto. }
    destruct (String.eqb (status b) "completed" && truthy (b_status body)) eqn:Hdone.
    { apply andb_true_iff in Hdone as [Hs1%String.eqb_eq Ht].
      rewrite (regular_refused_completed env id body db b) by done. cbn. tauto. }
    destruct (strictEq (b_status body) "cancelled" && negb (String.eqb (status b) "cancelled"))
      eqn:Hcancel.
    + apply andb_true_iff in Hcancel as [Hst%strictEq_Some Hs2%negb_true_iff].
      rewrite Hst in Hdone. cbn in Hdone. rewrite andb_true_r in Hdone.
      rewrite (cancel_succeeds env id body db b) by done. cbn. tauto.
    + rewrite (regular_succeeds env id body db b) by done. cbn. tauto.
Qed.

Lemma no_server_error_without_failure_witness :
  In (code (updateBookingStatus env_ok id_b1 (status_body "archived") db0).1)
     [200; 400; 404]
  /\ handleRequest env_ok id_b1 NotAnObject db0
     = (json (ErrorBody "Failed to update booking") 500, db0).
Proof.
  destruct (no_server_error_without_failure env_ok id_b1 (status_body "archived") db0)
    as [H1 H2].
  - intros s; reflexivity.
  - intros u; reflexivity.
  - split; [exact H1|]. apply H2. vm_compute; reflexivity.
Defined.

(** X7.  The guard on completed bookings applies only to a body with a
    [status].  A body that carries a [customerInfo] object (and possibly an
    [action] other than "complete") but no [status] and no other key is
    never refused for the state of the booking: on any existing booking, a
    completed one included, it answers 200 "Booking updated successfully",
    writes the [customerInfo], leaves the status as it was, and touches no
    car. *)
Theorem statusless_update_passes_every_guard env id body db b :
  NoFault env ->
  isValid env id = true ->
  b_status body = None ->
  b_action body <> Some "complete" ->
  runValidators env (update_of body) = true ->
  bookings db !! id = Some b ->
  let b' := {| status := status b;
               customerInfo := default (customerInfo b) (b_customerInfo body);
               carId := carId b; schedule := schedule b |} in
  updateBookingStatus env id body db =
    (json (MessageBody "Booking updated successfully"
             (Some {| doc := b'; populatedCar := cars db !! carId b |}))
          200,
     with_bookings db (<[id := b']> (bookings db))).
Proof.
  intros NF Hid Hst Ha Hv Hb b'.
  assert (Hreq : requests_complete body = false).
  { unfold requests_complete. rewrite Hst. cbn. apply orb_false_iff. split; [|done].
    destruct (strictEq (b_action body) "complete") eqn:E; [|done].
    by apply strictEq_Some in E. }
  rewrite (regular_succeeds env id body db b); try done; rewrite ?Hst; cbn [truthy strictEq];
    rewrite ?andb_false_r; try done.
  cbv zeta. unfold applyUpdate, update_of. rewrite Hst. reflexivity.
Qed.

Lemma statusless_update_passes_every_guard_witness :
  let body := {| b_status := None; b_action := None; b_customerInfo := Some brian |} in
  let db_done := after id_b1 complete_body db0 in
  status_of id_b1 db_done = Some "completed"
  /\ code (updateBookingStatus env_ok id_b1 body db_done).1 = 200
  /\ customerInfo <$> bookings (updateBookingStatus env_ok id_b1 body db_done).2 !! id_b1
     = Some brian.
Proof.
  cbv zeta. split; [vm_compute; reflexivity|].
  rewrite (statusless_update_passes_every_guard env_ok id_b1
             {| b_status := None; b_action := None; b_customerInfo := Some brian |}
             (after id_b1 complete_body db0) (with_status b1 "completed")).
  - split; [reflexivity|]. cbn [snd bookings with_bookings].
    rewrite lookup_insert_eq. reflexivity.
  - intros s; reflexivity.
  - vm_compute; reflexivity.
  - reflexivity.
  - discriminate.
  - reflexivity.
  - vm_compute; reflexivity.
Defined.

(** * The standalone completion route *)

Ltac run_complete :=
  unfold CompleteRoute.completeBooking, CompleteRoute.PATCH,
    bind, try_finally, try_catch, await, await_commit.

Lemma update_car_push_nil k cs : update_car k (push_each []) cs = cs.
Proof.
  rewrite (update_car_ext _ _ (fun sched => sched)); [apply update_car_id|].
  intros sched. apply app_nil_r.
Qed.

(** What the standalone route can leave behind. *)
Lemma standalone_cases env id db :
  let r := CompleteRoute.completeBooking env id db in
  (r.2 = db /\ forall resp, r.1 = Return resp -> code resp <> 200)
  \/ (exists b,
        bookings db !! id = Some b
        /\ r.2 = {| bookings := <[id := with_status b "completed"]> (bookings db);
                    cars := update_car (carId b)
                              (push_each (CompleteRoute.newScheduleEntries (occupied b)))
                              (cars db) |}
        /\ ((exists p, r.1 = Return (json (MessageBody "Booking completed successfully" p) 200))
            \/ (fault env SCompleteRefetch <> None /\ exists e, r.1 = Throw e))).
Proof.
  run_complete.
  on_fault env SStartSession; [unchanged|].
  on_fault env SConnect; [unchanged|].
  destruct (isValid env id); reduce; [|unchanged].
  on_fault env SCompleteFind; [unchanged|].
  destruct (bookings db !! id) as [b|] eqn:Hb; reduce; [|unchanged].
  destruct (String.eqb (status b) "completed"); reduce; [unchanged|].
  destruct (String.eqb (status b) "cancelled"); reduce; [unchanged|].
  on_fault env SCompleteSet; [unchanged|].
  rewrite Hb. reduce.
  destruct (schedule_date b) as [[|d dates]|] eqn:Hd; rewrite ?length_positive; reduce.
  2: on_fault env SCompletePush; [unchanged|];
     unfold Car_updateOne; reduce;
     destruct (cars db !! carId b) as [c|] eqn:Hc; reduce.
  all: on_fault env SCompleteCommit; [unchanged|].
  all: right; exists b; split; [done|].
  all: unfold occupied; rewrite Hd; cbn [default CompleteRoute.newScheduleEntries map];
       rewrite ?update_car_push_nil; unfold update_car; rewrite ?Hc.
  all: on_fault env SCompleteRefetch;
       (split; [destruct db; reflexivity |]);
       [right; split; [done | eauto] | left; eauto].
Qed.

Lemma standalone_succeeds env id db b :
  NoFault env ->
  isValid env id = true ->
  bookings db !! id = Some b ->
  String.eqb (status b) "completed" = false ->
  String.eqb (status b) "cancelled" = false ->
  let cars' := update_car (carId b)
                 (push_each (CompleteRoute.newScheduleEntries (occupied b))) (cars db) in
  CompleteRoute.completeBooking env id db =
    (Return (json (MessageBody "Booking completed successfully"
                     (Some {| doc := with_status b "completed";
                              populatedCar := cars' !! carId b |}))
                  200),
     {| bookings := <[id := with_status b "completed"]> (bookings db); cars := cars' |}).
Proof.
  intros NF Hid Hb Hs1 Hs2 cars'. subst cars'.
  run_complete. rewrite !NF. reduce. rewrite Hid. reduce.
  rewrite Hb, Hs1, Hs2. reduce. rewrite Hb. reduce.
  unfold occupied.
  destruct (schedule_date b) as [[|d dates]|] eqn:Hd; rewrite ?length_positive;
    cbn [default CompleteRoute.newScheduleEntries map]; rewrite ?update_car_push_nil; reduce.
  2: unfold Car_updateOne, update_car; reduce;
     destruct (cars db !! carId b) as [c|] eqn:Hc; reduce.
  all: rewrite lookup_insert_eq; reduce.
  all: by destruct db.
Qed.

Lemma standalone_refused env id db b :
  NoFault env ->
  isValid env id = true ->
  bookings db !! id = Some b ->
  status b = "completed" \/ status b = "cancelled" ->
  CompleteRoute.completeBooking env id db =
    (Return (json (ErrorBody (if String.eqb (status b) "completed"
                              then "Booking is already completed"
                              else "Cannot complete a cancelled booking")) 400),
     db).
Proof.
  intros NF Hid Hb Hs.
  run_complete. rewrite !NF. reduce. rewrite Hid. reduce.
  rewrite Hb. by destruct Hs as [-> | ->].
Qed.

Lemma standalone_not_found env id db :
  NoFault env ->
  isValid env id = true ->
  bookings db !! id = None ->
  CompleteRoute.completeBooking env id db =
    (Return (json (ErrorBody "Booking not found") 404), db).
Proof.
  intros NF Hid Hb. run_complete. rewrite !NF. reduce. rewrite Hid. reduce. by rewrite Hb.
Qed.

Lemma standalone_invalid env id db :
  fault env SStartSession = None ->
  fault env SConnect = None ->
  isValid env id = false ->
  CompleteRoute.completeBooking env id db =
    (Return (json (ErrorBody "Invalid booking ID") 400), db).
Proof.
  intros H1 H2 Hid. run_complete. rewrite H1, H2. reduce. by rewrite Hid.
Qed.

(** X8.  Through the standalone completion route, a pending or confirmed
    booking becomes completed with answer 200, and the car's schedule gains
    one entry [{date: [d], available: false}] per occupied date, in order,
    after the entries it had. *)
Theorem standalone_completion_blocks_with_false env id db b c dates :
  NoFault env ->
  isValid env id = true ->
  bookings db !! id = Some b ->
  status b = "pending" \/ status b = "confirmed" ->
  schedule_date b = Some dates ->
  cars db !! carId b = Some c ->
  let b' := with_status b "completed" in
  let c' := with_schedule c
              (car_schedule c
               ++ map (fun d => {| date := [d]; available := Some false |}) dates) in
  CompleteRoute.completeBooking env id db =
    (Return (json (MessageBody "Booking completed successfully"
                     (Some {| doc := b'; populatedCar := Some c' |}))
                  200),
     {| bookings := <[id := b']> (bookings db);
        cars := <[carId b := c']> (cars db) |}).
Proof.
  intros NF Hid Hb [Hs1 Hs2]%open_status_eqb Hd Hc b' c'.
  rewrite (standalone_succeeds env id db b) by done. cbv zeta.
  unfold occupied. rewrite Hd. cbn [default]. unfold update_car. rewrite Hc.
  by rewrite lookup_insert_eq.
Qed.

Lemma standalone_completion_blocks_with_false_witness :
  schedule_of id_c1 (CompleteRoute.completeBooking env_ok id_b1 db0).2
  = Some (car_schedule c1
          ++ [{| date := [june1]; available := Some false |};
              {| date := [june2]; available := Some false |}])%list.
Proof.
  rewrite (standalone_completion_blocks_with_false env_ok id_b1 db0 b1 c1 [june1; june2]).
  - unfold schedule_of. cbn [snd cars]. rewrite lookup_insert_eq. reflexivity.
  - intros s; reflexivity.
  - vm_compute; reflexivity.
  - vm_compute; reflexivity.
  - left; reflexivity.
  - reflexivity.
  - vm_compute; reflexivity.
Defined.

(** X9.  The standalone route is all-or-nothing: unless it answers 200, the
    collections are exactly as before the call, whether it answers an error
    (as after a failed write) or lets an exception escape (as after a
    failed commit, when the [abortTransaction] of its [catch] throws), and
    whatever failed before the commit returned.  (The re-read after the
    commit is outside: the hypothesis excludes a failure there.) *)
Theorem standalone_failure_rolls_back env id db :
  fault env SCompleteRefetch = None ->
  (forall resp, (CompleteRoute.completeBooking env id db).1 = Return resp ->
                code resp <> 200) ->
  (CompleteRoute.completeBooking env id db).2 = db.
Proof.
  intros Hre Herr.
  destruct (standalone_cases env id db) as [[Hs _]|(b & _ & _ & [[p Hp]|[Hf _]])];
    cbv zeta in *; [done| |done].
  by destruct (Herr _ Hp).
Qed.

Lemma standalone_failure_rolls_back_witness :
  (CompleteRoute.completeBooking (env_failing SCompletePush) id_b1 db0).1
  = Return (json (ErrorBody "Failed to complete booking: write conflict") 500)
  /\ (CompleteRoute.completeBooking (env_failing SCompletePush) id_b1 db0).2 = db0
  /\ (CompleteRoute.completeBooking (env_failing SCompleteCommit) id_b1 db0).1
     = Throw (JsError "Cannot call abortTransaction after calling commitTransaction")
  /\ (CompleteRoute.completeBooking (env_failing SCompleteCommit) id_b1 db0).2 = db0.
Proof.
  split; [vm_compute; reflexivity|]. split; [|split; [vm_compute; reflexivity|]].
  - apply (standalone_failure_rolls_back (env_failing SCompletePush) id_b1 db0).
    + reflexivity.
    + intros resp H. vm_compute in H. injection H as <-. discriminate.
  - apply (standalone_failure_rolls_back (env_failing SCompleteCommit) id_b1 db0).
    + reflexivity.
    + intros resp H. vm_compute in H. discriminate H.
Defined.

(** X10.  The standalone route has no handler for what its own [catch]
    throws.  When the connection fails there is no transaction yet, so the
    [abortTransaction] of the [catch] throws "No transaction started" and
    the request ends in that exception, not in a JSON answer; the main
    route answers the same failure with 500 "Failed to update booking".
    Neither changes the collections. *)
Theorem standalone_connection_failure_escapes env id body db e :
  fault env SStartSession = None ->
  fault env SConnect = Some e ->
  CompleteRoute.completeBooking env id db = (Throw (JsError "No transaction started"), db)
  /\ updateBookingStatus env id body db
     = (json (ErrorBody "Failed to update booking") 500, db).
Proof.
  intros H1 H2. split.
  - run_complete. by rewrite H1, H2.
  - run_request. by rewrite H2.
Qed.

Lemma standalone_connection_failure_escapes_witness :
  CompleteRoute.completeBooking (env_failing SConnect) id_b1 db0
  = (Throw (JsError "No transaction started"), db0)
  /\ updateBookingStatus (env_failing SConnect) id_b1 complete_body db0
     = (json (ErrorBody "Failed to update booking") 500, db0).
Proof.
  apply (standalone_connection_failure_escapes (env_failing SConnect) id_b1 complete_body db0
           (JsError "write conflict")); reflexivity.
Defined.

(** X11.  When the re-read that follows the commit fails, the standalone
    route neither answers nor rolls back: its [catch] calls
    [abortTransaction] on a committed transaction, which throws, so the
    request ends in that exception while the booking is completed and the
    dates are blocked. *)
Theorem standalone_reread_failure_escapes_after_commit env id db b e :
  (forall s, s <> SCompleteRefetch -> fault env s = None) ->
  fault env SCompleteRefetch = Some e ->
  isValid env id = true ->
  bookings db !! id = Some b ->
  status b = "pending" \/ status b = "confirmed" ->
  CompleteRoute.completeBooking env id db =
    (Throw (JsError "Cannot call abortTransaction after calling commitTransaction"),
     {| bookings := <[id := with_status b "completed"]> (bookings db);
        cars := update_car (carId b)
                  (push_each (CompleteRoute.newScheduleEntries (occupied b))) (cars db) |}).
Proof.
  intros NF Hre Hid Hb [Hs1 Hs2]%open_status_eqb.
  run_complete. rewrite Hre, !NF by discriminate. reduce. rewrite Hid. reduce.
  rewrite Hb, Hs1, Hs2. reduce. rewrite Hb. reduce.
  unfold occupied.
  destruct (schedule_date b) as [[|d dates]|] eqn:Hd; rewrite ?length_positive;
    cbn [default CompleteRoute.newScheduleEntries map]; rewrite ?update_car_push_nil; reduce.
  2: unfold Car_updateOne, update_car; reduce;
     destruct (cars db !! carId b) as [c|] eqn:Hc; reduce.
  all: by destruct db.
Qed.

Lemma standalone_reread_failure_escapes_after_commit_witness :
  (CompleteRoute.completeBooking (env_failing SCompleteRefetch) id_b1 db0).1
  = Throw (JsError "Cannot call abortTransaction after calling commitTransaction")
  /\ status_of id_b1 (CompleteRoute.completeBooking (env_failing SCompleteRefetch) id_b1 db0).2
     = Some "completed".
Proof.
  rewrite (standalone_reread_failure_escapes_after_commit (env_failing SCompleteRefetch)
             id_b1 db0 b1 (JsError "write conflict")).
  - split; [reflexivity|]. unfold status_of. cbn [snd bookings].
    rewrite lookup_insert_eq. reflexivity.
  - intros s Hs. destruct s; try reflexivity. by destruct Hs.
  - reflexivity.
  - vm_compute; reflexivity.
  - vm_compute; reflexivity.
  - left; reflexivity.
Defined.

(** X12.  Dates blocked through the standalone route stay blocked: after it
    has completed a booking, no later request to the main route, for any
    booking and with any body, removes one of the entries it pushed; in
    particular the cancellation of an overlapping booking does not. *)
Theorem standalone_blocks_survive_main_route env id db b c dates env' id' body' :
  NoFault env ->
  isValid env id = true ->
  bookings db !! id = Some b ->
  status b = "pending" \/ status b = "confirmed" ->
  schedule_date b = Some dates ->
  cars db !! carId b = Some c ->
  let db1 := (CompleteRoute.completeBooking env id db).2 in
  exists c',
    cars (updateBookingStatus env' id' body' db1).2 !! carId b = Some c'
    /\ forall d, In d dates ->
                 In {| date := [d]; available := Some false |} (car_schedule c').
Proof.
  intros NF Hid Hb [Hs1 Hs2]%open_status_eqb Hd Hc db1. subst db1.
  rewrite (standalone_succeeds env id db b) by done. cbv zeta. cbn [snd].
  unfold occupied. rewrite Hd. cbn [default]. unfold update_car at 1. rewrite Hc.
  set (c1' := with_schedule c _). set (db1 := {| bookings := _; cars := _ |}).
  assert (Hc1 : cars db1 !! carId b = Some c1') by (subst db1; cbn; by rewrite lookup_insert_eq).
  assert (Hin : forall d, In d dates ->
                  In {| date := [d]; available := Some false |} (car_schedule c1')).
  { intros d Hdin. subst c1'. cbn [car_schedule with_schedule]. unfold push_each.
    apply in_or_app. right. unfold CompleteRoute.newScheduleEntries.
    apply in_map_iff. by exists d. }
  destruct (request_cars env' id' body' db1) as [->|(b0 & f & Hb0 & -> & Hf)];
    [by exists c1'|].
  rewrite update_car_lookup. destruct (decide (carId b0 = carId b)) as [Heq|]; [|by exists c1'].
  rewrite Heq, Hc1. eexists. split; [reflexivity|]. cbn [car_schedule with_schedule].
  intros d Hdin. destruct (requests_complete body'); subst f.
  - unfold push_each. apply in_or_app. left. by apply Hin.
  - apply pull_blocked_spec. split; [by apply Hin|]. by intros [[=] _].
Qed.

Lemma standalone_blocks_survive_main_route_witness :
  let db1 := (CompleteRoute.completeBooking env_ok id_b2 db0).2 in
  exists c',
    cars (updateBookingStatus env_ok id_b1 (status_body "cancelled") db1).2 !! id_c1
    = Some c'
    /\ forall d, In d [june1] ->
                 In {| date := [d]; available := Some false |} (car_schedule c').
Proof.
  apply (standalone_blocks_survive_main_route env_ok id_b2 db0 b2 c1 [june1]
           env_ok id_b1 (status_body "cancelled")).
  - intros s; reflexivity.
  - vm_compute; reflexivity.
  - vm_compute; reflexivity.
  - right; reflexivity.
  - reflexivity.
  - vm_compute; reflexivity.
Defined.

(** X13.  A booking is completed once, whichever route is used: after a
    completion through the main route the standalone route refuses it with
    400 "Booking is already completed", and the other way round, each time
    without changing anything. *)
Theorem completion_is_refused_across_routes env id body db b :
  NoFault env ->
  isValid env id = true ->
  requests_complete body = true ->
  bookings db !! id = Some b ->
  status b = "pending" \/ status b = "confirmed" ->
  let by_main := (updateBookingStatus env id body db).2 in
  let by_standalone := (CompleteRoute.completeBooking env id db).2 in
  CompleteRoute.completeBooking env id by_main
  = (Return (json (ErrorBody "Booking is already completed") 400), by_main)
  /\ updateBookingStatus env id body by_standalone
     = (json (ErrorBody "Booking is already completed") 400, by_standalone).
Proof.
  intros NF Hid Hreq Hb [Hs1 Hs2]%open_status_eqb by_main by_standalone.
  subst by_main by_standalone.
  rewrite (complete_succeeds env id body db b) by done.
  rewrite (standalone_succeeds env id db b) by done. cbv zeta. cbn [snd]. split.
  - rewrite (standalone_refused env id _ (with_status b "completed")); try done.
    + by cbn [bookings]; rewrite lookup_insert_eq.
    + by left.
  - rewrite (complete_refused env id body _ (with_status b "completed")); try done.
    + by cbn [bookings]; rewrite lookup_insert_eq.
    + by left.
Qed.

Lemma completion_is_refused_across_routes_witness :
  (CompleteRoute.completeBooking env_ok id_b1
     (updateBookingStatus env_ok id_b1 complete_body db0).2).1
  = Return (json (ErrorBody "Booking is already completed") 400)
  /\ (updateBookingStatus env_ok id_b1 complete_body
        (CompleteRoute.completeBooking env_ok id_b1 db0).2).1
     = json (ErrorBody "Booking is already completed") 400.
Proof.
  destruct (completion_is_refused_across_routes env_ok id_b1 complete_body db0 b1)
    as [H1 H2].
  - intros s; reflexivity.
  - vm_compute; reflexivity.
  - reflexivity.
  - vm_compute; reflexivity.
  - left; reflexivity.
  - cbv zeta in H1, H2. rewrite H1, H2. split; reflexivity.
Defined.

(** * The plain update route *)

Ltac run_plain :=
  unfold PlainRoute.updateBooking, PlainRoute.handleRequest, PlainRoute.PATCH,
    request_json, bind, try_catch, await.

Lemma plain_succeeds env id body db b :
  NoFault env ->
  isValid env id = true ->
  runValidators env (update_of body) = true ->
  bookings db !! id = Some b ->
  let b' := applyUpdate (update_of body) b in
  PlainRoute.updateBooking env id body db =
    (PlainRoute.json
       (PlainRoute.BookingBody {| doc := b'; populatedCar := cars db !! carId b |}) 200,
     with_bookings db (<[id := b']> (bookings db))).
Proof.
  intros NF Hid Hv Hb b'.
  run_plain. rewrite !NF. reduce. rewrite Hid. reduce.
  unfold Booking_findByIdAndUpdate. reduce. rewrite Hv. reduce. by rewrite Hb.
Qed.

(** X14.  The plain route writes to one booking and to nothing else: for
    an identifier in canonical form, whatever the request body (a JSON
    object or not) and whatever fails, the cars are unchanged and every
    other booking is unchanged. *)
Theorem plain_route_writes_one_booking env id request db :
  canonicalId id = true ->
  let db' := (PlainRoute.handleRequest env id request db).2 in
  cars db' = cars db
  /\ (forall id', id' <> id -> bookings db' !! id' = bookings db !! id').
Proof.
  intros _. unfold PlainRoute.handleRequest, PlainRoute.PATCH, request_json,
    bind, try_catch, await.
  on_fault env SConnect; [by auto|].
  destruct (isValid env id); reduce; [|by auto].
  destruct request as [body|]; reduce; [|by auto].
  on_fault env SRegularSet; [by auto|].
  unfold Booking_findByIdAndUpdate. reduce.
  destruct (runValidators env (update_of body)); reduce; [|by auto].
  destruct (bookings db !! id) as [b|] eqn:Hb; reduce.
  - on_fault env SRegularPopulate.
    all: split; [done|]; by intros id' Hne; rewrite lookup_insert_ne.
  - on_fault env SRegularPopulate; by auto.
Qed.

(** X15.  The plain route has no lifecycle guard: on any existing booking,
    whatever its status, a body the schema accepts is written as it is and
    answered 200 with the booking itself; so a status of ["completed"] is
    stored without any blocking entry being pushed, and a completed booking
    can be given any status again. *)
Theorem plain_route_has_no_guard env id body db b :
  NoFault env ->
  isValid env id = true ->
  runValidators env (update_of body) = true ->
  bookings db !! id = Some b ->
  let b' := {| status := default (status b) (b_status body);
               customerInfo := default (customerInfo b) (b_customerInfo body);
               carId := carId b; schedule := schedule b |} in
  PlainRoute.updateBooking env id body db =
    (PlainRoute.json
       (PlainRoute.BookingBody {| doc := b'; populatedCar := cars db !! carId b |}) 200,
     {| bookings := <[id := b']> (bookings db); cars := cars db |}).
Proof.
  intros NF Hid Hv Hb b'. by rewrite (plain_succeeds env id body db b).
Qed.

Lemma plain_route_has_no_guard_witness :
  let db1 := (PlainRoute.updateBooking env_ok id_b1 (status_body "completed") db0).2 in
  status_of id_b1 db1 = Some "completed"
  /\ schedule_of id_c1 db1 = Some (car_schedule c1)
  /\ status_of id_b1 (PlainRoute.updateBooking env_ok id_b1 (status_body "pending") db1).2
     = Some "pending".
Proof.
  cbv zeta.
  rewrite (plain_route_has_no_guard env_ok id_b1 (status_body "completed") db0 b1).
  - cbn [snd]. split; [|split].
    + unfold status_of. cbn [bookings]. rewrite lookup_insert_eq. reflexivity.
    + vm_compute; reflexivity.
    + rewrite (plain_route_has_no_guard env_ok id_b1 (status_body "pending") _
                 (with_status b1 "completed")).
      * unfold status_of. cbn [snd bookings]. rewrite lookup_insert_eq. reflexivity.
      * intros s; reflexivity.
      * vm_compute; reflexivity.
      * reflexivity.
      * cbn [bookings]. rewrite lookup_insert_eq. reflexivity.
  - intros s; reflexivity.
  - vm_compute; reflexivity.
  - reflexivity.
  - vm_compute; reflexivity.
Defined.

(** X16.  Where the main route has nothing of its own to do, it is the
    plain route: for a body that asks for no completion, whose status, if
    any, is valid, on a booking that is not completed (or with no status in
    the body) and not about to be cancelled, both routes leave the same
    collections and return the same booking. *)
Theorem main_route_falls_back_to_plain_update env id body db b :
  NoFault env ->
  isValid env id = true ->
  requests_complete body = false ->
  truthy (b_status body) && negb (includes validStatuses (b_status body)) = false ->
  bookings db !! id = Some b ->
  String.eqb (status b) "completed" && truthy (b_status body) = false ->
  strictEq (b_status body) "cancelled" && negb (String.eqb (status b) "cancelled") = false ->
  runValidators env (update_of body) = true ->
  (updateBookingStatus env id body db).2 = (PlainRoute.updateBooking env id body db).2
  /\ exists m p,
       payload (updateBookingStatus env id body db).1 = MessageBody m (Some p)
       /\ PlainRoute.payload (PlainRoute.updateBooking env id body db).1
          = PlainRoute.BookingBody p
       /\ code (updateBookingStatus env id body db).1 = 200
       /\ PlainRoute.code (PlainRoute.updateBooking env id body db).1 = 200.
Proof.
  intros NF Hid Hreq Hvalid Hb Hdone Hcancel Hv.
  rewrite (regular_succeeds env id body db b) by done.
  rewrite (plain_succeeds env id body db b) by done.
  split; [done|]. by eexists _, _.
Qed.

Lemma main_route_falls_back_to_plain_update_witness :
  (updateBookingStatus env_ok id_b1 (status_body "confirmed") db0).2
  = (PlainRoute.updateBooking env_ok id_b1 (status_body "confirmed") db0).2.
Proof.
  apply (main_route_falls_back_to_plain_update env_ok id_b1 (status_body "confirmed") db0 b1).
  - intros s; reflexivity.
  - vm_compute; reflexivity.
  - reflexivity.
  - reflexivity.
  - vm_compute; reflexivity.
  - reflexivity.
  - reflexivity.
  - reflexivity.
Defined.

Lemma plain_route_writes_one_booking_witness :
  cars (PlainRoute.updateBooking (env_failing SRegularPopulate) id_b1
          (status_body "completed") db0).2 = cars db0
  /\ bookings (PlainRoute.updateBooking (env_failing SRegularPopulate) id_b1
                 (status_body "completed") db0).2 !! id_b2 = Some b2
  /\ status_of id_b1 (PlainRoute.updateBooking (env_failing SRegularPopulate) id_b1
                        (status_body "completed") db0).2 = Some "completed".
Proof.
  destruct (plain_route_writes_one_booking (env_failing SRegularPopulate) id_b1
              (JsonObject (status_body "completed")) db0) as (H1 & H2); [reflexivity|].
  cbv zeta in H1, H2. split; [exact H1|]. split.
  - unfold PlainRoute.updateBooking. rewrite H2; [vm_compute; reflexivity | discriminate].
  - vm_compute; reflexivity.
Defined.

(** * The callers *)

Lemma offered_actions status type :
  In type (BookingsPage.actions status) ->
  (status = "pending" /\ (type = BookingModal.confirm \/ type = BookingModal.cancel))
  \/ (status = "confirmed" /\ type = BookingModal.complete).
Proof.
  unfold BookingsPage.actions. intros Hin. apply in_app_or in Hin.
  destruct Hin as [Hin|Hin].
  - destruct (String.eqb status "pending") eqn:Hp; [|by destruct Hin].
    apply String.eqb_eq in Hp. left. split; [done|].
    destruct Hin as [<-|[<-|[]]]; auto.
  - destruct (String.eqb status "confirmed") eqn:Hc; [|by destruct Hin].
    apply String.eqb_eq in Hc. right. split; [done|].
    by destruct Hin as [<-|[]].
Qed.

(** X17.  Every action the bookings page offers on a row is one the route
    accepts: for a booking whose status shows the dialog of [type], sending
    the dialog's request answers with the success toast and leaves the
    booking in the status [statusMap[type]]. *)
Theorem offered_action_is_accepted env type id db b :
  NoFault env ->
  isValid env id = true ->
  id <> "" ->
  (forall u, runValidators env u = true) ->
  bookings db !! id = Some b ->
  In type (BookingsPage.actions (status b)) ->
  exists db',
    BookingModal.handleStatusUpdate env type (Some id) db
    = (Some (BookingModal.toast_success
               (String.append "Booking "
                  (String.append (BookingModal.actionTextMap type) "ed successfully"))),
       db')
    /\ status_of id db' = Some (BookingModal.statusMap type).
Proof.
  intros NF Hid Hne Hv Hb Hin.
  unfold BookingModal.handleStatusUpdate.
  assert (Ht : truthy (Some id) = true) by (cbn; by apply negb_true_iff, String.eqb_neq).
  rewrite Ht. cbn [negb default].
  apply offered_actions in Hin.
  destruct Hin as [[Hs [-> | ->]] | [Hs ->]];
    cbn [BookingModal.request_body BookingModal.statusMap BookingModal.actionTextMap].
  - rewrite (regular_succeeds env id _ db b); try done; [|by rewrite Hs..].
    eexists. split; [reflexivity|].
    unfold status_of. cbn [snd bookings with_bookings]. by rewrite lookup_insert_eq.
  - rewrite (cancel_succeeds env id _ db b); try done; [|by rewrite Hs..].
    eexists. split; [reflexivity|].
    unfold status_of. cbn [snd bookings]. by rewrite lookup_insert_eq.
  - rewrite (complete_succeeds env id _ db b); try done; [|by rewrite Hs..].
    eexists. split; [reflexivity|].
    unfold status_of. cbn [snd bookings]. by rewrite lookup_insert_eq.
Qed.

Lemma offered_action_is_accepted_witness :
  exists db',
    BookingModal.handleStatusUpdate env_ok BookingModal.cancel (Some id_b1) db0
    = (Some (BookingModal.toast_success "Booking canceled successfully"), db')
    /\ status_of id_b1 db' = Some "cancelled".
Proof.
  apply (offered_action_is_accepted env_ok BookingModal.cancel id_b1 db0 b1).
  - intros s; reflexivity.
  - vm_compute; reflexivity.
  - discriminate.
  - intros u; reflexivity.
  - vm_compute; reflexivity.
  - right; left; reflexivity.
Defined.

(** X18.  Through the page a booking moves forward only: an offered action
    leads to a status on which the page offers either the completion alone
    (after a confirmation) or nothing at all, so that a booking takes at
    most two actions and a cancelled or completed one is never offered
    another. *)
Theorem page_offers_at_most_two_actions status type :
  In type (BookingsPage.actions status) ->
  (type = BookingModal.confirm
   /\ BookingsPage.actions (BookingModal.statusMap type) = [BookingModal.complete]
   /\ BookingsPage.actions (BookingModal.statusMap BookingModal.complete) = [])
  \/ (type <> BookingModal.confirm
      /\ BookingsPage.actions (BookingModal.statusMap type) = []).
Proof.
  intros [[_ [-> | ->]] | [_ ->]]%offered_actions.
  - left. by repeat split.
  - right. by split.
  - right. by split.
Qed.

Lemma page_offers_at_most_two_actions_witness :
  BookingsPage.actions (BookingModal.statusMap BookingModal.cancel) = [].
Proof.
  destruct (page_offers_at_most_two_actions "pending" BookingModal.cancel)
    as [[H _]|[_ H]].
  - right; left; reflexivity.
  - discriminate H.
  - exact H.
Defined.

(** * The bookings page *)

Lemma slice_take_drop {A} (l : list A) (s e : nat) :
  (s <= e)%nat ->
  BookingsPage.slice l (Z.of_nat s) (Z.of_nat e) = take (e - s) (drop s l).
Proof.
  intros Hse. unfold BookingsPage.slice.
  destruct (Z.ltb_spec (Z.of_nat s) 0) as [|_]; [lia|].
  destruct (Z.ltb_spec (Z.of_nat e) 0) as [|_]; [lia|].
  destruct (decide (s <= length l)%nat) as [Hs|Hs].
  - rewrite (Z.min_l (Z.of_nat s)) by lia. rewrite Nat2Z.id.
    destruct (decide (e <= length l)%nat) as [He|He].
    + rewrite Z.min_l by lia. f_equal. lia.
    + rewrite Z.min_r by lia.
      rewrite !take_ge; [done| |]; rewrite length_drop; lia.
  - rewrite !Z.min_r by lia. rewrite Nat2Z.id, Z.sub_diag.
    rewrite (drop_ge l s) by lia. by rewrite drop_all, !take_nil.
Qed.

Lemma chunks_concat {A} (n k : nat) (l : list A) :
  (length l <= n * k)%nat ->
  concat (map (fun i => take n (drop (n * i) l)) (seq 0 k)) = l.
Proof.
  revert l. induction k as [|k IH]; intros l Hlen.
  - cbn. destruct l; [done | cbn in Hlen; lia].
  - cbn [seq map concat]. rewrite Nat.mul_0_r, drop_0.
    rewrite <- seq_shift, map_map.
    etrans; [|apply (take_drop n l)]. f_equal.
    etrans; [|apply (IH (drop n l)); rewrite length_drop; lia].
    f_equal. apply map_ext. intros i. rewrite drop_drop. do 2 f_equal. lia.
Qed.

Lemma totalPages_nat {A} (l : list A) :
  exists k : nat,
    BookingsPage.totalPages l = Z.of_nat k
    /\ (length l <= 10 * k)%nat /\ (10 * k < length l + 10)%nat.
Proof.
  unfold BookingsPage.totalPages, BookingsPage.bookingsPerPage.
  pose proof (Z.div_mod (- Z.of_nat (length l)) 10 ltac:(lia)) as Hdm.
  pose proof (Z.mod_pos_bound (- Z.of_nat (length l)) 10 ltac:(lia)) as Hm.
  exists (Z.to_nat (- (- Z.of_nat (length l) / 10))). lia.
Qed.

Lemma currentBookings_chunk {A} (l : list A) (i : nat) :
  BookingsPage.currentBookings l (Z.of_nat i + 1) = take 10 (drop (10 * i) l).
Proof.
  unfold BookingsPage.currentBookings, BookingsPage.indexOfFirstBooking,
    BookingsPage.indexOfLastBooking, BookingsPage.bookingsPerPage.
  replace ((Z.of_nat i + 1) * 10 - 10) with (Z.of_nat (10 * i)) by lia.
  replace ((Z.of_nat i + 1) * 10) with (Z.of_nat (10 * i + 10)) by lia.
  rewrite slice_take_drop by lia. f_equal. lia.
Qed.

(** X19.  The pages of the bookings table partition the filtered list: put
    one after the other, pages 1 to [totalPages] give the list back, every
    booking once and in order. *)
Theorem pages_partition_the_list {A} (filteredBookings : list A) :
  concat (map (BookingsPage.currentBookings filteredBookings)
            (seqZ 1 (BookingsPage.totalPages filteredBookings)))
  = filteredBookings.
Proof.
  destruct (totalPages_nat filteredBookings) as (k & -> & Hk & _).
  unfold seqZ. rewrite Nat2Z.id, <- list_fmap_compose.
  rewrite <- (chunks_concat 10 k filteredBookings Hk) at 2.
  f_equal. apply map_ext. intros i. cbn. apply currentBookings_chunk.
Qed.

(** X20.  A page never shows more than ten bookings; each of the pages 1 to
    [totalPages] shows at least one, and every page after the last shows
    none. *)
Theorem page_sizes {A} (filteredBookings : list A) (currentPage : Z) :
  (length (BookingsPage.currentBookings filteredBookings currentPage) <= 10)%nat
  /\ (1 <= currentPage <= BookingsPage.totalPages filteredBookings ->
      BookingsPage.currentBookings filteredBookings currentPage <> [])
  /\ (BookingsPage.totalPages filteredBookings < currentPage ->
      BookingsPage.currentBookings filteredBookings currentPage = []).
Proof.
  destruct (totalPages_nat filteredBookings) as (k & -> & Hk1 & Hk2).
  split; [|split].
  - unfold BookingsPage.currentBookings, BookingsPage.slice,
      BookingsPage.indexOfFirstBooking, BookingsPage.indexOfLastBooking,
      BookingsPage.bookingsPerPage.
    rewrite length_take. etrans; [apply Nat.le_min_l|].
    destruct (Z.ltb_spec (currentPage * 10 - 10) 0);
      destruct (Z.ltb_spec (currentPage * 10) 0); lia.
  - intros Hcp. replace currentPage with (Z.of_nat (Z.to_nat (currentPage - 1)) + 1) by lia.
    rewrite currentBookings_chunk. intros Hnil.
    apply (f_equal length) in Hnil. rewrite length_take, length_drop in Hnil.
    change (length (@nil A)) with 0%nat in Hnil. lia.
  - intros Hcp. replace currentPage with (Z.of_nat (Z.to_nat (currentPage - 1)) + 1) by lia.
    rewrite currentBookings_chunk. rewrite drop_ge by lia. apply take_nil.
Qed.

Lemma page_sizes_witness :
  BookingsPage.totalPages (seq 0 23) = 3
  /\ BookingsPage.currentBookings (seq 0 23) 3 <> []
  /\ BookingsPage.currentBookings (seq 0 23) 4 = [].
Proof.
  destruct (page_sizes (seq 0 23) 3) as (_ & H3 & _).
  destruct (page_sizes (seq 0 23) 4) as (_ & _ & H4).
  split; [reflexivity|]. split.
  - apply H3. vm_compute. split; discriminate.
  - apply H4. reflexivity.
Defined.

(** X21.  The page buttons: with a single page, or none, the table renders
    no numbered button; with more pages, and a current page between 1 and
    [totalPages], it renders [min(5, totalPages)] buttons with consecutive
    numbers, all between 1 and [totalPages], and the current page is one of
    them. *)
Theorem page_buttons_window currentPage totalPages :
  (totalPages <= 1 -> BookingsPage.pageButtons currentPage totalPages = [])
  /\ (1 < totalPages ->
      1 <= currentPage <= totalPages ->
      exists first,
        BookingsPage.pageButtons currentPage totalPages = seqZ first (Z.min 5 totalPages)
        /\ 1 <= first
        /\ first + Z.min 5 totalPages - 1 <= totalPages
        /\ first <= currentPage < first + Z.min 5 totalPages).
Proof.
  unfold BookingsPage.pageButtons. split.
  { intros Htp. destruct (Z.ltb_spec 1 totalPages); [lia | done]. }
  intros Htp Hcp. destruct (Z.ltb_spec 1 totalPages); [|lia].
  assert (Hshift : forall first,
            (forall i, BookingsPage.pageNumber currentPage totalPages i = first + i) ->
            map (BookingsPage.pageNumber currentPage totalPages) (seqZ 0 (Z.min 5 totalPages))
            = seqZ first (Z.min 5 totalPages)).
  { intros first Hf. unfold seqZ.
    induction (seq 0 (Z.to_nat (Z.min 5 totalPages))) as [|i l IH]; [done|].
    cbn. rewrite Hf. f_equal; [lia | exact IH]. }
  assert (Hnum : forall first,
            first = (if totalPages <=? 5 then 1
                     else if currentPage <=? 3 then 1
                     else if totalPages - 2 <=? currentPage then totalPages - 4
                     else currentPage - 2) ->
            forall i, BookingsPage.pageNumber currentPage totalPages i = first + i).
  { intros first -> i. unfold BookingsPage.pageNumber.
    repeat case_match; lia. }
  eexists. split; [apply Hshift, Hnum; reflexivity|].
  destruct (Z.leb_spec totalPages 5); [lia|].
  destruct (Z.leb_spec currentPage 3); [lia|].
  destruct (Z.leb_spec (totalPages - 2) currentPage); lia.
Qed.

Lemma page_buttons_window_witness :
  BookingsPage.pageButtons 1 1 = []
  /\ BookingsPage.pageButtons 7 8 = [4; 5; 6; 7; 8]
  /\ exists first,
       BookingsPage.pageButtons 7 8 = seqZ first (Z.min 5 8)
       /\ 1 <= first
       /\ first + Z.min 5 8 - 1 <= 8
       /\ first <= 7 < first + Z.min 5 8.
Proof.
  split; [apply (proj1 (page_buttons_window 1 1)); lia|].
  split; [reflexivity|].
  apply (proj2 (page_buttons_window 7 8)); lia.
Defined.

(** X22.  Expanding a row twice brings the set of expanded rows back, and a
    toggle changes the state of the toggled row only: afterwards a row is
    expanded exactly when it was and is another row, or is the toggled row
    and was not. *)
Theorem toggle_row_twice (expandedRows : gset string) (bookingId : string) :
  BookingsPage.toggleRowExpansion
    (BookingsPage.toggleRowExpansion expandedRows bookingId) bookingId
  = expandedRows
  /\ forall row,
       row ∈ BookingsPage.toggleRowExpansion expandedRows bookingId
       <-> (row <> bookingId /\ row ∈ expandedRows)
           \/ (row = bookingId /\ bookingId ∉ expandedRows).
Proof.
  unfold BookingsPage.toggleRowExpansion. split.
  - destruct (bool_decide (bookingId ∈ expandedRows)) eqn:Hin.
    + apply bool_decide_eq_true in Hin.
      rewrite bool_decide_eq_false_2.
      * symmetry. apply union_difference_L. by apply singleton_subseteq_l.
      * apply not_elem_of_difference. right. by apply elem_of_singleton.
    + apply bool_decide_eq_false in Hin.
      rewrite bool_decide_eq_true_2.
      * rewrite difference_union_distr_l_L, difference_diag_L, (left_id_L ∅ (∪)).
        apply difference_disjoint_L. by apply disjoint_singleton_r.
      * apply elem_of_union. left. by apply elem_of_singleton.
  - intros row. destruct (bool_decide (bookingId ∈ expandedRows)) eqn:Hin.
    + apply bool_decide_eq_true in Hin.
      rewrite elem_of_difference, elem_of_singleton. tauto.
    + apply bool_decide_eq_false in Hin.
      rewrite elem_of_union, elem_of_singleton.
      destruct (decide (row = bookingId)) as [->|]; tauto.
Qed.

(** * The bookings table *)

Lemma day_of_ignores_time day time :
  BookingsTable.day_of (String.append day (String BookingsTable.char_T time))
  = BookingsTable.day_of day.
Proof.
  induction day as [|c day IH].
  - change (BookingsTable.day_of (String BookingsTable.char_T time) = EmptyString).
    cbn [BookingsTable.day_of]. by rewrite Ascii.eqb_refl.
  - change (BookingsTable.day_of
              (String c (String.append day (String BookingsTable.char_T time)))
            = BookingsTable.day_of (String c day)).
    cbn [BookingsTable.day_of].
    destruct (Ascii.eqb c BookingsTable.char_T); [done | by rewrite IH].
Qed.

Lemma getBookedDays_cons date dates :
  BookingsTable.getBookedDays (date :: dates)
  = if bool_decide (BookingsTable.day_of date ∈ map BookingsTable.day_of dates)
    then BookingsTable.getBookedDays dates
    else BookingsTable.getBookedDays dates + 1.
Proof.
  unfold BookingsTable.getBookedDays. cbn [map]. rewrite list_to_set_cons.
  case_bool_decide as Hin.
  - f_equal. f_equal. apply subseteq_union_1_L, singleton_subseteq_l.
    by apply elem_of_list_to_set.
  - rewrite size_union, size_singleton; [lia|].
    apply disjoint_singleton_l. intros Hel. apply Hin.
    by apply elem_of_list_to_set in Hel.
Qed.

(** X23.  [getBookedDays] counts calendar days, not timestamps: a timestamp
    counts for the part before its ['T'], whatever time follows; a date on
    a day already in the list adds nothing and one on a new day adds one; so
    the count never exceeds the number of dates. *)
Theorem booked_days_counts_days_once date dates :
  (forall day time,
     BookingsTable.getBookedDays (String.append day (String BookingsTable.char_T time) :: dates)
     = BookingsTable.getBookedDays (day :: dates))
  /\ (In (BookingsTable.day_of date) (map BookingsTable.day_of dates) ->
      BookingsTable.getBookedDays (date :: dates) = BookingsTable.getBookedDays dates)
  /\ (~ In (BookingsTable.day_of date) (map BookingsTable.day_of dates) ->
      BookingsTable.getBookedDays (date :: dates) = BookingsTable.getBookedDays dates + 1)
  /\ 0 <= BookingsTable.getBookedDays dates <= Z.of_nat (length dates).
Proof.
  split; [|split; [|split]].
  - intros day time. by rewrite !getBookedDays_cons, day_of_ignores_time.
  - intros Hin. rewrite getBookedDays_cons.
    by rewrite bool_decide_eq_true_2 by (by apply list_elem_of_In).
  - intros Hin. rewrite getBookedDays_cons.
    by rewrite bool_decide_eq_false_2 by (by rewrite list_elem_of_In).
  - induction dates as [|d dates IH]; [done|].
    rewrite getBookedDays_cons. cbn [length]. case_bool_decide; lia.
Qed.

Lemma booked_days_counts_days_once_witness :
  BookingsTable.getBookedDays
    ["2024-06-01T08:00:00.000Z"; "2024-06-01T17:30:00.000Z"; "2024-06-02T00:00:00.000Z"]
  = 2.
Proof.
  destruct (booked_days_counts_days_once "2024-06-01T08:00:00.000Z"
              ["2024-06-01T17:30:00.000Z"; "2024-06-02T00:00:00.000Z"])
    as (_ & Hsame & _ & _).
  rewrite Hsame; [vm_compute; reflexivity|].
  left; reflexivity.
Defined.
